(** * taskqueue: a shallow embedding of [taskqueue/taskqueue.py]

    The module offers three queues behind one task-lifecycle interface:
    [TaskQueue] (a facade over a remote lease-based queue, with the worker
    loop [poll]), [MockTaskQueue] (runs a task on insertion) and
    [LocalTaskQueue] (buffers tasks and runs them on a process pool).

    Python objects are modelled as records, dictionaries as [gmap string pyval],
    exceptions by their class hierarchy, and every method as a function in a
    state-and-exception monad: a raised exception keeps the mutations made
    before it, as in Python. *)

From Stdlib Require Import QArith Qminmax Qpower Lqa.
From stdpp Require Import base list strings gmap.

Local Open Scope Z_scope.
Local Open Scope string_scope.
Local Open Scope list_scope.

(** ** Python values and exceptions *)

Inductive pyval :=
| PNone
| PBool (b : bool)
| PInt (z : Z)
| PStr (s : string).

#[global] Instance pyval_eq_dec : EqDecision pyval.
Proof. solve_decision. Defined.

(** Truth value of an object, as used by [x if x else y]. *)
Definition truthy (v : pyval) : bool :=
  match v with
  | PNone => false
  | PBool b => b
  | PInt z => negb (Z.eqb z 0)
  | PStr s => negb (bool_decide (s = ""))
  end.

(** An exception instance: the names of its class and of the classes it
    derives from (its method resolution order), and its message. *)
Record exn := Exn { exn_mro : list string; exn_msg : string }.

#[global] Instance exn_eq_dec : EqDecision exn.
Proof. solve_decision. Defined.

Definition isinstance (e : exn) (cls : string) : bool :=
  bool_decide (cls ∈ exn_mro e).

(** [except (c1, ..., cn):] catches [e] when [e] is an instance of some [ci]. *)
Definition except_matches (classes : list string) (e : exn) : bool :=
  existsb (isinstance e) classes.

Definition AttributeError (msg : string) : exn :=
  Exn ["AttributeError"; "Exception"; "BaseException"] msg.
Definition KeyError (key : string) : exn :=
  Exn ["KeyError"; "LookupError"; "Exception"; "BaseException"] key.
Definition ValueError (msg : string) : exn :=
  Exn ["ValueError"; "Exception"; "BaseException"] msg.
Definition NotImplementedError (msg : string) : exn :=
  Exn ["NotImplementedError"; "RuntimeError"; "Exception"; "BaseException"] msg.

(** [class QueueEmpty(LookupError)], raised with the message 'Queue Empty'. *)
Definition QueueEmpty : exn :=
  Exn ["TaskQueue.QueueEmpty"; "LookupError"; "Exception"; "BaseException"]
      "Queue Empty".

(** ** Outcomes and the state-and-exception monad *)

Inductive outcome (A : Type) :=
| Ret (a : A)
| Raise (e : exn).
Arguments Ret {A} a.
Arguments Raise {A} e.

Definition raised {A} (o : outcome A) : option exn :=
  match o with Ret _ => None | Raise e => Some e end.

Definition obind {A B} (o : outcome A) (k : A → outcome B) : outcome B :=
  match o with
  | Ret a => k a
  | Raise e => Raise e
  end.

(** A computation over a mutable state [S]: the state survives a raise. *)
Definition M (S A : Type) : Type := S → outcome A * S.

Definition ret {S A} (a : A) : M S A := fun s => (Ret a, s).
Definition raise {S A} (e : exn) : M S A := fun s => (Raise e, s).
Definition lift {S A} (o : outcome A) : M S A := fun s => (o, s).
Definition bind {S A B} (c : M S A) (k : A → M S B) : M S B :=
  fun s =>
    match c s with
    | (Ret a, s') => k a s'
    | (Raise e, s') => (Raise e, s')
    end.
Definition modify {S} (f : S → S) : M S unit := fun s => (Ret tt, f s).
Definition gets {S A} (f : S → A) : M S A := fun s => (Ret (f s), s).

(** [try: c except classes: h] *)
Definition try_except {S A} (c : M S A) (classes : list string)
    (h : exn → M S A) : M S A :=
  fun s =>
    match c s with
    | (Ret a, s') => (Ret a, s')
    | (Raise e, s') =>
        if except_matches classes e then h e s' else (Raise e, s')
    end.

Declare Scope py_scope.
Delimit Scope py_scope with py.
Notation "'let*' x ':=' c 'in' k" := (bind c (fun x => k))
  (at level 10, x name, c at level 100, k at level 200, only parsing) : py_scope.
Notation "c ';;;' k" := (bind c (fun _ => k))
  (at level 100, k at level 200, right associativity, only parsing) : py_scope.
Notation "'let!' x ':=' o 'in' k" := (obind o (fun x => k))
  (at level 10, x name, o at level 100, k at level 200, only parsing) : py_scope.

(** [for x in xs: f(x)] *)
Fixpoint for_each {S A} (f : A → M S unit) (xs : list A) : M S unit :=
  match xs with
  | [] => ret tt
  | x :: rest => (f x ;;; for_each f rest)%py
  end.

(** [[f(x) for x in xs]] for a pure, fallible [f]. *)
Fixpoint map_outcome {A B} (f : A → outcome B) (xs : list A) : outcome (list B) :=
  match xs with
  | [] => Ret []
  | x :: rest =>
      (let! y := f x in let! ys := map_outcome f rest in Ret (y :: ys))%py
  end.

(** ** Tasks and raw task records *)

(** A registered task: the name of its class, what [payload()] returns and
    the attribute [_id] ([PNone] until the backend assigns one). *)
Record Task := mkTask { class_name : string; payload : pyval; _id : pyval }.

#[global] Instance Task_eq_dec : EqDecision Task.
Proof. solve_decision. Defined.

Definition set_id (t : Task) (i : pyval) : Task :=
  {| class_name := class_name t; payload := payload t; _id := i |}.

(** A dictionary with string keys; [d[k]] raises [KeyError] on a missing key. *)
Definition getitem (d : gmap string pyval) (k : string) : outcome pyval :=
  match d !! k with
  | Some v => Ret v
  | None => Raise (KeyError k)
  end.

(** [str.lower] on ASCII text. *)
Definition ascii_lower (c : Ascii.ascii) : Ascii.ascii :=
  let n := Ascii.nat_of_ascii c in
  if Nat.leb 65 n && Nat.leb n 90 then Ascii.ascii_of_nat (n + 32) else c.

Fixpoint lower (s : string) : string :=
  match s with
  | EmptyString => EmptyString
  | String c rest => String (ascii_lower c) (lower rest)
  end.

(** ** The queue backend, as the facade sees it *)

(** The calls the facade makes on [self._api]. The closures
    [cloud_insertion] and [cloud_delete] that the facade hands to its thread
    pool are represented by the call they make. *)
Inductive api_call :=
| ApiInsert (body : gmap string pyval)
| ApiLease (numTasks seconds : Z) (groupByTag : bool) (tag : pyval)
| ApiDelete (task_id : pyval)
| ApiAcknowledge (task_id : pyval)
| ApiList
| ApiPurge.

#[global] Instance api_call_eq_dec : EqDecision api_call.
Proof. solve_decision. Defined.

(** The interface of [AWSTaskQueueAPI] (module [aws_queue_api]), over a
    remote queue of state [B]. [api_purge] is [None] when the class has no
    [purge] attribute; [api_connect qurl region] is what the constructor
    does. *)
Class QueueAPI (B : Type) := {
  api_connect : pyval → pyval → option exn;
  api_insert : gmap string pyval → B → outcome unit * B;
  api_lease : Z → Z → bool → pyval → B → outcome (list (gmap string pyval)) * B;
  api_delete : pyval → B → outcome unit * B;
  api_acknowledge : pyval → B → outcome unit * B;
  api_list : B → outcome (list (gmap string pyval)) * B;
  api_purge : option (B → outcome pyval * B)
}.

(** What [self._api] holds: the [NotImplementedError] instance that
    [_initialize_interface] returns for Google queues, or an AWS client. *)
Inductive api_handle :=
| NotImplementedInstance (e : exn)
| AWSTaskQueueAPI (qurl region_name : pyval).

(** The state the facade acts on: the remote queue, the thread pool's queue
    of submitted calls ([self._queue]), and, as a ghost field, the calls made
    on the backend so far, oldest first. *)
Record world (B : Type) := World {
  backend : B;
  _queue : list api_call;
  calls : list api_call
}.
Arguments World {B} _ _ _.
Arguments backend {B} _.
Arguments _queue {B} _.
Arguments calls {B} _.

Record TaskQueue := mkTaskQueue {
  _project : pyval;
  _region : pyval;
  _queue_name : string;
  _queue_server : string;
  _qurl : pyval;
  _api : api_handle;
  _threads : nat          (* len(self._threads) *)
}.

(** What a method hands back when it returns either [self] or a value. *)
Inductive retval :=
| RSelf (self : TaskQueue)
| RVal (v : pyval).

(** [delete] and [acknowledge] take a task or a raw id. *)
Inductive task_or_id :=
| OfTask (t : Task)
| OfId (i : pyval).

(** The backend calls that deleting the tasks [lst] amounts to. *)
Definition deletes_of (lst : list Task) : list api_call :=
  (fun task => ApiDelete (_id task)) <$> lst.

Section Facade.
Context {B : Type} {api : QueueAPI B}.
(** [registered_task.deserialize] and [secrets.AWS_DEFAULT_REGION]. *)
Variable deserialize : pyval → outcome Task.
Variable AWS_DEFAULT_REGION : pyval.

(** [api.<attr>(...)]: an attribute lookup on the [NotImplementedError]
    instance raises [AttributeError]; on the AWS client the call runs on
    the remote queue and is logged. *)
Definition via_api {A} (h : api_handle) (c : api_call)
    (op : B → outcome A * B) : M (world B) A :=
  fun w =>
    match h with
    | NotImplementedInstance _ =>
        (Raise (AttributeError "'NotImplementedError' object has no such attribute"), w)
    | AWSTaskQueueAPI _ _ =>
        let '(r, b') := op (backend w) in
        (r, World b' (_queue w) (calls w ++ [c]))
    end.

(** Running one submitted call against an interface. *)
Definition run_call (h : api_handle) (c : api_call) : M (world B) unit :=
  match c with
  | ApiInsert body => via_api h c (api_insert body)
  | ApiDelete i => via_api h c (api_delete i)
  | ApiAcknowledge i => via_api h c (api_acknowledge i)
  | ApiLease n s g t =>
      (let* _ := via_api h c (api_lease n s g t) in ret tt)%py
  | ApiList => (let* _ := via_api h c api_list in ret tt)%py
  | ApiPurge =>
      match api_purge with
      | Some op => (let* _ := via_api h c op in ret tt)%py
      | None => raise (AttributeError "purge")
      end
  end.

(** [ThreadedQueue.put]: the call is queued for the pool's threads and
    [put] returns without waiting for it. *)
Definition put (c : api_call) : M (world B) unit :=
  modify (fun w => World (backend w) (_queue w ++ [c]) (calls w)).

(** [ThreadedQueue.wait]: blocks until every submitted call has run and
    then surfaces the first error one of them raised. The pool's threads
    are modelled by the schedule that runs the submitted calls, in order,
    when [wait] is called. *)
Fixpoint run_pending (h : api_handle) (cs : list api_call)
    (err : option exn) (w : world B) : option exn * world B :=
  match cs with
  | [] => (err, w)
  | c :: rest =>
      let '(r, w') := run_call h c w in
      run_pending h rest
        (match err with Some e => Some e | None => raised r end) w'
  end.

Definition wait (self : TaskQueue) : M (world B) TaskQueue :=
  fun w =>
    let '(err, w') :=
      run_pending (_api self) (_queue w) None (World (backend w) [] (calls w)) in
    match err with
    | None => (Ret self, w')
    | Some e => (Raise e, w')
    end.

Definition _initialize_interface (queue_server queue_name : string)
    (qurl region : pyval) : outcome api_handle :=
  let server := lower queue_server in
  if bool_decide (server ∈ ["pull-queue"; "google"]) then
    Ret (NotImplementedInstance
           (NotImplementedError "Google Cloud Tasks are not supported at this time."))
  else if bool_decide (server ∈ ["sqs"; "aws"]) then
    let qurl := if truthy qurl then qurl else PStr queue_name in
    let region := if truthy region then region else AWS_DEFAULT_REGION in
    match api_connect qurl region with
    | None => Ret (AWSTaskQueueAPI qurl region)
    | Some e => Raise e
    end
  else Raise (NotImplementedError ("Unknown server " +:+ queue_server)).

(** [TaskQueue.__init__]; the superclass initializer starts [n_threads]
    threads. *)
Definition __init__ (queue_name queue_server : string) (region qurl : pyval)
    (n_threads : nat) (project : pyval) : outcome TaskQueue :=
  (let! api := _initialize_interface queue_server queue_name qurl region in
   Ret {| _project := project; _region := region; _queue_name := queue_name;
          _queue_server := queue_server; _qurl := qurl; _api := api;
          _threads := n_threads |})%py.

Definition insert_body (self : TaskQueue) (task : Task) : gmap string pyval :=
  <["payload" := payload task]>
    (<["queueName" := PStr (_queue_name self)]>
       (<["groupByTag" := PBool true]>
          (<["tag" := PStr (class_name task)]> ∅))).

Definition insert (self : TaskQueue) (task : Task) : M (world B) TaskQueue :=
  let body := insert_body self task in
  let cloud_insertion := ApiInsert body in
  ((if negb (Nat.eqb (_threads self) 0)
    then put cloud_insertion
    else run_call (_api self) cloud_insertion) ;;;
   ret self)%py.

Definition totask (task : gmap string pyval) : outcome Task :=
  (let! p := getitem task "payload" in
   let! taskobj := deserialize p in
   let! i := getitem task "id" in
   Ret (set_id taskobj i))%py.

Definition list_ (self : TaskQueue) : M (world B) (list Task) :=
  (let* raw := via_api (_api self) ApiList api_list in
   lift (map_outcome totask raw))%py.

Definition lease (self : TaskQueue) (seconds num_tasks : Z) (tag : pyval)
    : M (world B) Task :=
  let tag := if truthy tag then tag else PNone in
  let groupByTag := negb (bool_decide (tag = PNone)) in
  (let* tasks := via_api (_api self) (ApiLease num_tasks seconds groupByTag tag)
                   (api_lease num_tasks seconds groupByTag tag) in
   if Nat.eqb (length tasks) 0 then raise QueueEmpty
   else match tasks !! 0%nat with
        | Some task => lift (totask task)
        | None => raise (Exn ["IndexError"; "LookupError"; "Exception"; "BaseException"]
                           "list index out of range")
        end)%py.

(** [task_id.id] when a task is given; [RegisteredTask.id] reads [_id]. *)
Definition id_of (x : task_or_id) : pyval :=
  match x with
  | OfTask t => _id t
  | OfId i => i
  end.

Definition acknowledge (self : TaskQueue) (task_id : task_or_id)
    : M (world B) TaskQueue :=
  let cloud_delete := ApiAcknowledge (id_of task_id) in
  ((if negb (Nat.eqb (_threads self) 0)
    then put cloud_delete
    else run_call (_api self) cloud_delete) ;;;
   ret self)%py.

Definition delete (self : TaskQueue) (task_id : task_or_id)
    : M (world B) TaskQueue :=
  let cloud_delete := ApiDelete (id_of task_id) in
  ((if negb (Nat.eqb (_threads self) 0)
    then put cloud_delete
    else run_call (_api self) cloud_delete) ;;;
   ret self)%py.

(** [for task in lst: self.delete(task)] *)
Definition delete_each (self : TaskQueue) (lst : list Task) : M (world B) unit :=
  for_each (fun task => let* _ := delete self (OfTask task) in ret tt)%py lst.

(** The expression [self._api.purge()]. *)
Definition call_purge (self : TaskQueue) : M (world B) pyval :=
  match _api self, api_purge with
  | AWSTaskQueueAPI _ _, Some op => via_api (_api self) ApiPurge op
  | _, _ => raise (AttributeError "purge")
  end.

(** The body of the [except AttributeError] clause of [purge]: the
    [while True] loop, run for at most [fuel] rounds ([None]: the loop is
    still running). *)
Fixpoint purge_fallback (fuel : nat) (self : TaskQueue) (w : world B)
    : option (outcome retval * world B) :=
  match fuel with
  | O => None
  | S fuel' =>
      match list_ self w with
      | (Raise e, w1) => Some (Raise e, w1)
      | (Ret lst, w1) =>
          if Nat.eqb (length lst) 0 then Some (Ret (RSelf self), w1)
          else
            match (for_each (fun task => let* _ := delete self (OfTask task) in ret tt)
                     lst ;;;
                   wait self)%py w1 with
            | (Raise e, w2) => Some (Raise e, w2)
            | (Ret _, w2) => purge_fallback fuel' self w2
            end
      end
  end.

Definition purge (fuel : nat) (self : TaskQueue) (w : world B)
    : option (outcome retval * world B) :=
  match call_purge self w with
  | (Ret v, w') => Some (Ret (RVal v), w')
  | (Raise e, w') =>
      if except_matches ["AttributeError"] e
      then purge_fallback fuel self w'
      else Some (Raise e, w')
  end.

End Facade.

(** ** The worker loop, [TaskQueue.poll] *)

(** What the caller passes as [stop_fn] and [log_fn]. *)
Inductive stop_fn_arg :=
| StopNone
| StopCallable
| StopNotCallable (repr : string).

Inductive log_fn_arg :=
| LogNone
| LogCallable.

(** What the surroundings do during one pass of the [while] loop: the value
    of the global [LOOP] at the loop test ([false] once the SIGINT handler
    ran), the effect of [task.execute], of the caller's [log_fn] and
    [stop_fn], and the number drawn by [random.random()]. *)
Record iteration := mkIteration {
  it_LOOP : bool;
  it_execute : option exn;
  it_log : option exn;
  it_stop : outcome bool;
  it_random : Q
}.

(** Ghost record of what the loop did, oldest first. *)
Inductive event :=
| Leased (t : Task)
| Executed (t : Task)
| Acknowledged (t : Task)
| Logged (t : Task)
| BackedOff (e : exn)
| Slept (n : nat) (seconds : Q).

Record poll_state (B : Type) := PollState {
  p_world : world B;
  tries : nat;
  executed : nat;
  backoff : bool;
  events : list event
}.
Arguments PollState {B} _ _ _ _ _.
Arguments p_world {B} _.
Arguments tries {B} _.
Arguments executed {B} _.
Arguments backoff {B} _.
Arguments events {B} _.

(** Control leaving one pass of the loop body. *)
Inductive flow := Continue | Break.

(** [random.uniform(a, b)] is [a + (b - a) * random()], here over the
    rationals. *)
Definition uniform (a b u : Q) : Q := (a + (b - a) * u)%Q.

Definition random_exponential_window_backoff
    (min_backoff_window max_backoff_window : Z) (n : Z) (u : Q) : Q :=
  let n := Z.min n min_backoff_window in
  let high := Qmin (Qpower (2 # 1) n) (inject_Z max_backoff_window) in
  uniform 0 high u.

Section Poll.
Context {B : Type} {api : QueueAPI B}.
Variable deserialize : pyval → outcome Task.

Definition in_world {A} (c : M (world B) A) : M (poll_state B) A :=
  fun s =>
    let '(r, w') := c (p_world s) in
    (r, PollState w' (tries s) (executed s) (backoff s) (events s)).

Definition emit (ev : event) : M (poll_state B) unit :=
  modify (fun s =>
    PollState (p_world s) (tries s) (executed s) (backoff s) (events s ++ [ev])).

Definition set_tries (f : nat → nat) : M (poll_state B) unit :=
  modify (fun s =>
    PollState (p_world s) (f (tries s)) (executed s) (backoff s) (events s)).

Definition set_executed (f : nat → nat) : M (poll_state B) unit :=
  modify (fun s =>
    PollState (p_world s) (tries s) (f (executed s)) (backoff s) (events s)).

Definition set_backoff (b : bool) : M (poll_state B) unit :=
  modify (fun s =>
    PollState (p_world s) (tries s) (executed s) b (events s)).

(** A call whose only modelled effect is to return or raise. *)
Definition effect (o : option exn) : M (poll_state B) unit :=
  match o with
  | None => ret tt
  | Some e => raise e
  end.

(** [time.sleep(d)]; a negative length is refused. *)
Definition sleep (n : nat) (d : Q) : M (poll_state B) unit :=
  if Qle_bool 0 d then emit (Slept n d)
  else raise (ValueError "sleep length must be non-negative").

Variable self : TaskQueue.
Variable lease_seconds : Z.
Variable stop_fn : stop_fn_arg.
Variable backoff_exceptions : list string.
Variables min_backoff_window max_backoff_window : Z.
Variable log_fn : log_fn_arg.

(** The body of the [try] statement. The [printv] calls only print. *)
Definition poll_body (it : iteration) : M (poll_state B) unit :=
  (let* task := in_world (lease deserialize self lease_seconds 1 PNone) in
   emit (Leased task) ;;;
   set_tries (fun n => n + 1)%nat ;;;
   effect (it_execute it) ;;;
   emit (Executed task) ;;;
   set_executed (fun n => n + 1)%nat ;;;
   (let* _ := in_world (delete self (OfTask task)) in ret tt) ;;;
   emit (Acknowledged task) ;;;
   match log_fn with
   | LogNone => ret tt
   | LogCallable => effect (it_log it)
   end ;;;
   emit (Logged task) ;;;
   set_tries (fun _ => 0%nat))%py.

(** The [try] statement: [except backoff_exceptions] with [QueueEmpty]
    appended to the caller's list; the clause [except Exception] re-raises. *)
Definition poll_try (it : iteration) : M (poll_state B) unit :=
  try_except (poll_body it) (backoff_exceptions ++ ["TaskQueue.QueueEmpty"])
    (fun e => emit (BackedOff e) ;;; set_backoff true)%py.

Definition call_stop_fn (it : iteration) : M (poll_state B) bool :=
  match stop_fn with
  | StopCallable => lift (it_stop it)
  | _ => ret false
  end.

(** One pass of the body of [while LOOP]. *)
Definition poll_iteration (it : iteration) : M (poll_state B) flow :=
  (poll_try it ;;;
   let* stop := call_stop_fn it in
   if (stop : bool) then ret Break
   else
     (let* b := gets backoff in
      if (b : bool) then
        let* n := gets tries in
        sleep n (random_exponential_window_backoff
                   min_backoff_window max_backoff_window (Z.of_nat n) (it_random it))
      else ret tt) ;;;
     set_backoff false ;;;
     ret Continue)%py.

(** The [while LOOP] statement along a script of passes; [None] when the
    script ends with the loop still running. *)
Fixpoint poll_loop (script : list iteration) (s : poll_state B)
    : option (outcome unit) * poll_state B :=
  match script with
  | [] => (None, s)
  | it :: rest =>
      if it_LOOP it then
        match poll_iteration it s with
        | (Raise e, s') => (Some (Raise e), s')
        | (Ret Break, s') => (Some (Ret tt), s')
        | (Ret Continue, s') => poll_loop rest s'
        end
      else (Some (Ret tt), s)
  end.

Definition poll_init (w : world B) : poll_state B :=
  PollState w 0 0 false [].

Definition poll (script : list iteration) (w : world B)
    : option (outcome nat) * poll_state B :=
  match stop_fn with
  | StopNotCallable repr =>
      (Some (Raise (ValueError ("stop_fn must be a callable. " +:+ repr))),
       poll_init w)
  | _ =>
      match poll_loop script (poll_init w) with
      | (None, s) => (None, s)
      | (Some (Raise e), s) => (Some (Raise e), s)
      | (Some (Ret _), s) => (Some (Ret (executed s)), s)
      end
  end.

End Poll.

(** ** Running a task locally *)

(** [task.execute()] as the local queues see it: [behaviour task] says
    whether the call returns or raises, and the ghost list [ran] collects the
    tasks whose [execute] has returned, oldest first. *)
Definition task_execute (behaviour : Task → option exn) (task : Task)
    : M (list Task) unit :=
  fun ran =>
    match behaviour task with
    | None => (Ret tt, ran ++ [task])
    | Some e => (Raise e, ran)
    end.

Module MockTaskQueue.

(** The object has no attributes of its own. *)
Inductive t := Mock.

Section Methods.
Variable behaviour : Task → option exn.

Definition __init__ : t := Mock.

(** [task.execute(); del task] and the implicit [return None]. *)
Definition insert (self : t) (task : Task) : M (list Task) unit :=
  task_execute behaviour task.

Definition poll (self : t) : M (list Task) t := ret self.
Definition wait (self : t) : M (list Task) t := ret self.
Definition kill_threads (self : t) : M (list Task) t := ret self.
Definition __enter__ (self : t) : M (list Task) t := ret self.
Definition __exit__ (self : t) : M (list Task) unit := ret tt.
End Methods.

End MockTaskQueue.

Module LocalTaskQueue.

(** The argument [parallel]: a flag or a number of processes. *)
Inductive parallel_arg :=
| ParBool (b : bool)
| ParInt (n : Z).

Record t := Local {
  parallel : parallel_arg;
  queue : list Task;
  progress : bool
}.

(** The object together with the ghost list of the tasks that ran. *)
Record state := State { self : t; ran : list Task }.

Definition par_truthy (p : parallel_arg) : bool :=
  match p with
  | ParBool b => b
  | ParInt n => negb (Z.eqb n 0)
  end.

Definition is_bool (p : parallel_arg) : bool :=
  match p with
  | ParBool _ => true
  | ParInt _ => false
  end.

(** The integer a [max_workers] argument stands for ([True] is 1). *)
Definition max_workers (p : parallel_arg) : Z :=
  match p with
  | ParBool b => if b then 1 else 0
  | ParInt n => n
  end.

(** The first task of a buffer whose [execute] raises, with its position. *)
Fixpoint first_failure (behaviour : Task → option exn) (i : nat) (q : list Task)
    : option (nat * exn) :=
  match q with
  | [] => None
  | task :: rest =>
      match behaviour task with
      | Some e => Some (i, e)
      | None => first_failure behaviour (S i) rest
      end
  end.

(** Tasks tagged with their position in the buffer. *)
Fixpoint number (i : nat) (q : list Task) : list (nat * Task) :=
  match q with
  | [] => []
  | task :: rest => (i, task) :: number (S i) rest
  end.

(** The result iterator of [executor.map] raises once every result up to
    the first failing one is in, and the futures that have not started are
    then cancelled. How many of them the real pool has already taken by then
    depends on timing; the model takes the schedule in which none has, so
    that after a failure it runs the fewest tasks the pool can run. *)
Definition cancelled (bad : option nat) (finished : list nat) : bool :=
  match bad with
  | None => false
  | Some f => forallb (fun i => bool_decide (i ∈ finished)) (seq 0 (S f))
  end.

Section Methods.
Variable behaviour : Task → option exn.
(** [multiprocessing.cpu_count()] *)
Variable cpu_count : Z.

Definition __init__ (parallel : parallel_arg) (progress : bool) : t :=
  let parallel :=
    if par_truthy parallel && is_bool parallel then ParInt cpu_count
    else parallel in
  {| parallel := parallel; queue := []; progress := progress |}.

(** [self.queue.append(task)] *)
Definition insert (task : Task) : M state unit :=
  modify (fun s =>
    State (Local (parallel (self s)) (queue (self s) ++ [task]) (progress (self s)))
          (ran s)).

Definition wait : M state t := gets self.
Definition poll : M state unit := ret tt.
Definition kill_threads : M state t := gets self.
Definition __enter__ : M state t := gets self.

(** [executor.map(task_execute, queue)] on a pool of [workers] processes:
    the tasks start in the order of the buffer, at most [workers] of them
    run at a time, and [schedule] picks which running task finishes next.
    One task finishes per unit of [fuel]. Returns the tasks that ran. *)
Fixpoint pool (fuel workers : nat) (schedule : list nat) (bad : option nat)
    (running waiting : list (nat * Task)) (finished : list nat)
    (ran : list Task) : list Task :=
  match fuel with
  | O => ran
  | S fuel' =>
      let waiting1 : list (nat * Task) :=
        if cancelled bad finished then [] else waiting in
      let idle := (workers - length running)%nat in
      let running1 : list (nat * Task) := running ++ take idle waiting1 in
      let waiting2 : list (nat * Task) := drop idle waiting1 in
      let c := (hd 0%nat schedule mod length running1)%nat in
      match (running1 !! c : option (nat * Task)) with
      | None => ran
      | Some (i, task) =>
          pool fuel' workers (tl schedule) bad (base.delete c running1) waiting2
            (i :: finished) (snd (task_execute behaviour task ran))
      end
  end.

(** [__exit__]: the pool refuses a size that is not positive; the buffer
    is emptied only when the drain did not raise. *)
Definition __exit__ (schedule : list nat) : M state unit :=
  fun s =>
    let q := queue (self s) in
    let workers := max_workers (parallel (self s)) in
    if Z.leb workers 0 then
      (Raise (ValueError "max_workers must be greater than 0"), s)
    else
      let bad := first_failure behaviour 0 q in
      let ran' := pool (length q) (Z.to_nat workers) schedule (fst <$> bad)
                    [] (number 0 q) [] (ran s) in
      match bad with
      | Some (_, e) => (Raise e, State (self s) ran')
      | None =>
          (Ret tt, State (Local (parallel (self s)) [] (progress (self s))) ran')
      end.
End Methods.

End LocalTaskQueue.

(** ** An in-memory backend

    A small queue service that implements the backend interface, used to run
    the facade and the worker loop on concrete inputs. [delete_error] makes
    every delete fail with the given exception. *)
Record memq := MemQ {
  stored : list (gmap string pyval);
  next_id : Z;
  delete_error : option exn
}.

Definition record_of (i : Z) (p : pyval) : gmap string pyval :=
  <["id" := PInt i]> (<["payload" := p]> ∅).

Definition memq_insert (body : gmap string pyval) (q : memq) : outcome unit * memq :=
  match body !! "payload" with
  | Some p =>
      (Ret tt, MemQ (stored q ++ [record_of (next_id q) p]) (next_id q + 1)
                    (delete_error q))
  | None => (Raise (KeyError "payload"), q)
  end.

Definition memq_lease (numTasks seconds : Z) (groupByTag : bool) (tag : pyval)
    (q : memq) : outcome (list (gmap string pyval)) * memq :=
  (Ret (take (Z.to_nat numTasks) (stored q)), q).

Definition has_id (i : pyval) (r : gmap string pyval) : bool :=
  bool_decide (r !! "id" = Some i).

Definition memq_delete (i : pyval) (q : memq) : outcome unit * memq :=
  match delete_error q with
  | Some e => (Raise e, q)
  | None =>
      (Ret tt, MemQ (List.filter (fun r => negb (has_id i r)) (stored q))
                    (next_id q) (delete_error q))
  end.

Definition memq_list (q : memq) : outcome (list (gmap string pyval)) * memq :=
  (Ret (take 100 (stored q)), q).

Definition memq_purge (q : memq) : outcome pyval * memq :=
  (Ret PNone, MemQ [] (next_id q) (delete_error q)).

(** The backend without and with a [purge] method. *)
Definition memq_api : QueueAPI memq :=
  {| api_connect := fun _ _ => None;
     api_insert := memq_insert;
     api_lease := memq_lease;
     api_delete := memq_delete;
     api_acknowledge := memq_delete;
     api_list := memq_list;
     api_purge := None |}.

Definition memq_api_with_purge : QueueAPI memq :=
  {| api_connect := fun _ _ => None;
     api_insert := memq_insert;
     api_lease := memq_lease;
     api_delete := memq_delete;
     api_acknowledge := memq_delete;
     api_list := memq_list;
     api_purge := Some memq_purge |}.

(** A deserializer for the examples: the payload names the task's class. *)
Definition deserialize_by_name (p : pyval) : outcome Task :=
  match p with
  | PStr name => Ret (mkTask name p PNone)
  | _ => Raise (ValueError "payload is not a registered task")
  end.

Definition sqs_queue (n_threads : nat) : TaskQueue :=
  {| _project := PNone; _region := PNone; _queue_name := "jobs";
     _queue_server := "sqs"; _qurl := PNone;
     _api := AWSTaskQueueAPI (PStr "jobs") (PStr "us-east-1");
     _threads := n_threads |}.

Definition memq_with (payloads : list string) (err : option exn) : memq :=
  MemQ (imap (fun i p => record_of (Z.of_nat i) (PStr p)) payloads)
       (Z.of_nat (length payloads)) err.

Definition fresh_world (q : memq) : world memq := World q [] [].

(** A transient backend error that a caller may list in
    [backoff_exceptions]. *)
Definition ClientError : exn :=
  Exn ["ClientError"; "Exception"; "BaseException"] "request failed".

(** A pass in which nothing outside the queue goes wrong: no interrupt, the
    task runs, and [stop_fn], when there is one, answers [stop]. *)
Definition quiet_pass (stop : bool) : iteration :=
  mkIteration true None None (Ret stop) (1 # 2).

(** A pass in which [execute] raises [e]. *)
Definition failing_pass (e : exn) : iteration :=
  mkIteration true (Some e) None (Ret false) (1 # 2).




(** Five tasks for a local queue. *)
Definition five_tasks : list Task :=
  (fun i => mkTask "MockTask" (PInt i) PNone) <$> [1; 2; 3; 4; 5].

(** ** Reading the ghost record of a run *)


Definition is_acknowledged (ev : event) : bool :=
  match ev with Acknowledged _ => true | _ => false end.


(** The number of lease, execute, acknowledge cycles a run of [poll] has
    completed: the passes in which the backend's delete of the leased and
    executed task was made and returned. Without a thread pool that is when
    [self.delete] returns ([Acknowledged]). With a pool [self.delete] only
    submits the call and [poll] never waits for the pool, so the backend has
    acknowledged nothing when the loop ends, whatever [self.delete] returned. *)
Definition completed_cycles (self : TaskQueue) (evs : list event) : nat :=
  if Nat.eqb (_threads self) 0
  then length (List.filter is_acknowledged evs)
  else 0%nat.

(** The retry counts handed to [random_exponential_window_backoff]. *)
Definition backoff_counts (evs : list event) : list nat :=
  omap (fun ev => match ev with Slept n _ => Some n | _ => None end) evs.

(** The window the claim gives for a sleep after [n] tries. *)
Definition window_high (min_backoff_window max_backoff_window : Z) (n : Z) : Q :=
  Qmin (Qpower (2 # 1) (Z.min n min_backoff_window)) (inject_Z max_backoff_window).

Definition sleep_within (min_backoff_window max_backoff_window : Z) (ev : event) : Prop :=
  match ev with
  | Slept n d =>
      (0 <= d)%Q ∧
      (d <= window_high min_backoff_window max_backoff_window (Z.of_nat n))%Q
  | _ => True
  end.

(** ** More readings of a run, and more test data *)

Definition is_leased (ev : event) : bool :=
  match ev with Leased _ => true | _ => false end.

Definition is_slept (ev : event) : bool :=
  match ev with Slept _ _ => true | _ => false end.

Definition is_backed_off (ev : event) : bool :=
  match ev with BackedOff _ => true | _ => false end.

(** How one event moves the retry counter. *)
Definition tries_after (n : nat) (ev : event) : nat :=
  match ev with
  | Leased _ => S n
  | Logged _ => 0%nat
  | _ => n
  end.

(** The number of tasks leased since the last pass that ran to its end. *)
Definition leases_since_success (evs : list event) : nat :=
  fold_left tries_after evs 0%nat.

Definition sleeps (evs : list event) : nat := length (List.filter is_slept evs).
Definition backoffs (evs : list event) : nat := length (List.filter is_backed_off evs).

(** The ids of the deletes among some backend calls, and of the tasks that
    ran. *)
Definition delete_ids (cs : list api_call) : list pyval :=
  omap (fun c => match c with ApiDelete i => Some i | _ => None end) cs.

Definition executed_ids (evs : list event) : list pyval :=
  omap (fun ev => match ev with Executed t => Some (_id t) | _ => None end) evs.

(** The calls [poll] is written to make: a lease of one task, without a tag,
    for [lease_seconds], and deletes. *)
Definition poll_call (lease_seconds : Z) (c : api_call) : bool :=
  match c with
  | ApiLease n s g t =>
      Z.eqb n 1 && Z.eqb s lease_seconds && negb g && bool_decide (t = PNone)
  | ApiDelete _ => true
  | _ => false
  end.

(** A sleep computed from a retry count of zero lasts at most a second. *)
Definition short_sleep (ev : event) : Prop :=
  match ev with
  | Slept n d => n = 0%nat ∧ (d <= 1)%Q
  | _ => True
  end.

(** The same queue object with another number of pool threads. *)
Definition with_threads (n : nat) (self : TaskQueue) : TaskQueue :=
  {| _project := _project self; _region := _region self;
     _queue_name := _queue_name self; _queue_server := _queue_server self;
     _qurl := _qurl self; _api := _api self; _threads := n |}.

Definition list_or_delete (c : api_call) : bool :=
  match c with
  | ApiList | ApiDelete _ => true
  | _ => false
  end.

(** In a run of [poll]: the deletes issued so far, made or still in the
    pool, are those of the tasks that ran, after the deletes [before] that
    were there at the start. *)
Definition deletes_match {B : Type} (self : TaskQueue) (before : list pyval)
    (s : poll_state B) : Prop :=
  delete_ids (calls (p_world s) ++ _queue (p_world s))
    = before ++ executed_ids (events s) ∧
  (_threads self = 0%nat → _queue (p_world s) = []).

(** A queue built with a Google server name, and a pass that finds the
    interrupt flag cleared. *)
Definition google_queue (n_threads : nat) : TaskQueue :=
  {| _project := PNone; _region := PNone; _queue_name := "jobs";
     _queue_server := "google"; _qurl := PNone;
     _api := NotImplementedInstance
               (NotImplementedError "Google Cloud Tasks are not supported at this time.");
     _threads := n_threads |}.

Definition interrupted_pass : iteration :=
  mkIteration false None None (Ret false) (1 # 2).

(** * Properties *)

(** ** The facade *)

Section FacadeFacts.
Context {B : Type} {api : QueueAPI B}.
Variable deserialize : pyval → outcome Task.
Variable AWS_DEFAULT_REGION : pyval.

Lemma via_api_client {A} qurl region c (op : B → outcome A * B) w :
  via_api (AWSTaskQueueAPI qurl region) c op w =
  (fst (op (backend w)), World (snd (op (backend w))) (_queue w) (calls w ++ [c])).
Proof. unfold via_api. by destruct (op (backend w)). Qed.

Lemma via_api_error_instance {A} e c (op : B → outcome A * B) w :
  ∃ msg, via_api (NotImplementedInstance e) c op w = (Raise (AttributeError msg), w).
Proof. by eexists. Qed.

(** C4. [lease] on a client whose backend answers with the records
    [tasks]: with no record it raises [QueueEmpty]; otherwise its result is
    [totask] of the first record, whatever follows it, which is the
    deserialized payload carrying the record's id. *)
Theorem lease_empty_or_first_record self seconds num_tasks tag qurl region
    w tasks b' :
  let tag' := if truthy tag then tag else PNone in
  let grouped := negb (bool_decide (tag' = PNone)) in
  let w' := World b' (_queue w)
              (calls w ++ [ApiLease num_tasks seconds grouped tag']) in
  _api self = AWSTaskQueueAPI qurl region →
  api_lease num_tasks seconds grouped tag' (backend w) = (Ret tasks, b') →
  (tasks = [] →
     lease deserialize self seconds num_tasks tag w = (Raise QueueEmpty, w')) ∧
  (∀ first rest, tasks = first :: rest →
     lease deserialize self seconds num_tasks tag w
       = (totask deserialize first, w') ∧
     ∀ p t i, first !! "payload" = Some p → deserialize p = Ret t →
       first !! "id" = Some i →
       lease deserialize self seconds num_tasks tag w = (Ret (set_id t i), w')).
Proof.
  intros tag' grouped w' Hapi Hreply.
  assert (Hcall : via_api (_api self) (ApiLease num_tasks seconds grouped tag')
                    (api_lease num_tasks seconds grouped tag') w = (Ret tasks, w')).
  { rewrite Hapi, via_api_client, Hreply. done. }
  split.
  - intros ->. unfold lease, bind. fold tag' grouped. by rewrite Hcall.
  - intros first rest ->.
    assert (Hfirst : lease deserialize self seconds num_tasks tag w
                     = (totask deserialize first, w')).
    { unfold lease, bind. fold tag' grouped. by rewrite Hcall. }
    split; [done |].
    intros p t i Hp Ht Hi. rewrite Hfirst. f_equal.
    unfold totask, getitem, obind. by rewrite Hp, Ht, Hi.
Qed.

End FacadeFacts.

Lemma lease_empty_or_first_record_witness :
  lease (api := memq_api) deserialize_by_name (sqs_queue 0) 600 2 PNone
        (fresh_world (memq_with ["PrintTask"; "MockTask"] None))
  = (Ret (mkTask "PrintTask" (PStr "PrintTask") (PInt 0)),
     World (memq_with ["PrintTask"; "MockTask"] None) []
           [ApiLease 2 600 false PNone]).
Proof.
  pose proof (lease_empty_or_first_record (api := memq_api) deserialize_by_name
    (sqs_queue 0) 600 2 PNone (PStr "jobs") (PStr "us-east-1")
    (fresh_world (memq_with ["PrintTask"; "MockTask"] None))
    (stored (memq_with ["PrintTask"; "MockTask"] None))
    (memq_with ["PrintTask"; "MockTask"] None) eq_refl eq_refl) as [_ Hfirst].
  destruct (Hfirst (record_of 0 (PStr "PrintTask")) [record_of 1 (PStr "MockTask")]
              eq_refl) as [_ Hid].
  exact (Hid (PStr "PrintTask") (mkTask "PrintTask" (PStr "PrintTask") PNone)
             (PInt 0) eq_refl eq_refl eq_refl).
Defined.

Section InsertFacts.
Context {B : Type} {api : QueueAPI B}.

Lemma run_call_insert_client qurl region body (w : world B) :
  run_call (AWSTaskQueueAPI qurl region) (ApiInsert body) w =
  (fst (api_insert body (backend w)),
   World (snd (api_insert body (backend w))) (_queue w) (calls w ++ [ApiInsert body])).
Proof. apply via_api_client. Qed.

(** C6. [insert] builds the envelope with exactly the four keys payload,
    queueName, groupByTag and tag. With a thread pool the backend call is
    only submitted: the remote queue is untouched and no call has been made
    when [insert] returns [self]. With no pool the backend's [insert] is
    called on the spot with that envelope, and [insert] returns [self] when
    the call returns. *)
Theorem insert_envelope_and_dispatch (self : TaskQueue) (task : Task) (w : world B) :
  let body := insert_body self task in
  (body !! "payload" = Some (payload task) ∧
   body !! "queueName" = Some (PStr (_queue_name self)) ∧
   body !! "groupByTag" = Some (PBool true) ∧
   body !! "tag" = Some (PStr (class_name task)) ∧
   dom body = ({["payload"; "queueName"; "groupByTag"; "tag"]} : gset string)) ∧
  (_threads self ≠ 0%nat →
     insert self task w
       = (Ret self, World (backend w) (_queue w ++ [ApiInsert body]) (calls w))) ∧
  (_threads self = 0%nat → ∀ qurl region, _api self = AWSTaskQueueAPI qurl region →
     insert self task w
       = (match fst (api_insert body (backend w)) with
          | Ret _ => Ret self
          | Raise e => Raise e
          end,
          World (snd (api_insert body (backend w))) (_queue w)
                (calls w ++ [ApiInsert body]))).
Proof.
  intros body. split; [| split].
  - unfold body, insert_body. split_and!; [by simplify_map_eq .. |].
    rewrite !dom_insert_L, dom_empty_L. set_solver.
  - intros Hthreads. unfold insert. fold body.
    destruct (Nat.eqb_spec (_threads self) 0) as [|_]; [done |].
    reflexivity.
  - intros Hthreads qurl region Hapi. unfold insert. fold body.
    rewrite Hthreads, Hapi. cbn [Nat.eqb negb]. unfold bind.
    rewrite run_call_insert_client.
    by destruct (fst (api_insert body (backend w))) as [[]|].
Qed.

End InsertFacts.

Lemma insert_envelope_and_dispatch_witness :
  insert (api := memq_api) (sqs_queue 40) (mkTask "PrintTask" (PStr "PrintTask") PNone)
         (fresh_world (memq_with [] None))
  = (Ret (sqs_queue 40),
     World (memq_with [] None)
       [ApiInsert (insert_body (sqs_queue 40) (mkTask "PrintTask" (PStr "PrintTask") PNone))]
       [])
  ∧
  insert (api := memq_api) (sqs_queue 0) (mkTask "PrintTask" (PStr "PrintTask") PNone)
         (fresh_world (memq_with [] None))
  = (Ret (sqs_queue 0),
     World (memq_with ["PrintTask"] None) []
       [ApiInsert (insert_body (sqs_queue 0) (mkTask "PrintTask" (PStr "PrintTask") PNone))]).
Proof.
  split.
  - apply (insert_envelope_and_dispatch (api := memq_api) (sqs_queue 40)
             (mkTask "PrintTask" (PStr "PrintTask") PNone)
             (fresh_world (memq_with [] None))).
    simpl. lia.
  - exact (proj2 (proj2 (insert_envelope_and_dispatch (api := memq_api) (sqs_queue 0)
             (mkTask "PrintTask" (PStr "PrintTask") PNone)
             (fresh_world (memq_with [] None))))
             eq_refl (PStr "jobs") (PStr "us-east-1") eq_refl).
Defined.

Lemma aws_name_not_google (s : string) :
  s ∈ ["sqs"; "aws"] → s ∉ ["pull-queue"; "google"].
Proof.
  rewrite !elem_of_cons, !elem_of_nil.
  intros [-> | [-> | []]] [? | [? | []]]; discriminate.
Qed.

Lemma unknown_name_split (s : string) :
  s ∉ ["pull-queue"; "google"; "sqs"; "aws"] →
  (s ∉ ["pull-queue"; "google"]) ∧ (s ∉ ["sqs"; "aws"]).
Proof.
  rewrite !elem_of_cons, !elem_of_nil. intros Hout.
  split; intros Hin; apply Hout; tauto.
Qed.

Section InitFacts.
Context {B : Type} {api : QueueAPI B}.
Variable deserialize : pyval → outcome Task.
Variable AWS_DEFAULT_REGION : pyval.

(** C10. With a Google server name (in any letter case) the constructor
    returns a queue whose [_api] is a [NotImplementedError] instance, and
    the failure shows as an [AttributeError] once a backend operation is
    tried ([lease], or [insert] without a thread pool). A name outside
    'pull-queue', 'google', 'sqs', 'aws' makes the constructor raise
    [NotImplementedError]; with 'sqs' or 'aws' the constructor raises only if
    building the AWS client does. *)
Theorem init_unsupported_backend_is_deferred (queue_name queue_server : string)
    (region qurl : pyval) (n_threads : nat) (project : pyval) :
  (lower queue_server ∈ ["pull-queue"; "google"] →
     ∃ q, __init__ AWS_DEFAULT_REGION queue_name queue_server region qurl
            n_threads project = Ret q ∧
          _api q = NotImplementedInstance
                     (NotImplementedError
                        "Google Cloud Tasks are not supported at this time.") ∧
          (∀ (w : world B) seconds num_tasks tag, ∃ msg,
             lease deserialize q seconds num_tasks tag w
               = (Raise (AttributeError msg), w)) ∧
          (n_threads = 0%nat → ∀ (w : world B) task, ∃ msg,
             insert q task w = (Raise (AttributeError msg), w))) ∧
  (lower queue_server ∉ ["pull-queue"; "google"; "sqs"; "aws"] →
     __init__ AWS_DEFAULT_REGION queue_name queue_server region qurl
       n_threads project
     = Raise (NotImplementedError ("Unknown server " +:+ queue_server))) ∧
  (lower queue_server ∈ ["sqs"; "aws"] →
     let qurl' := if truthy qurl then qurl else PStr queue_name in
     let region' := if truthy region then region else AWS_DEFAULT_REGION in
     __init__ AWS_DEFAULT_REGION queue_name queue_server region qurl
       n_threads project
     = match api_connect qurl' region' with
       | None => Ret (mkTaskQueue project region queue_name queue_server qurl
                        (AWSTaskQueueAPI qurl' region') n_threads)
       | Some e => Raise e
       end).
Proof.
  unfold __init__, _initialize_interface. split_and!.
  - intros Hin. rewrite bool_decide_eq_true_2 by done. cbn [obind].
    eexists. split_and!; [reflexivity | reflexivity | |].
    + intros w seconds num_tasks tag. eexists. reflexivity.
    + intros -> w task. eexists. reflexivity.
  - intros [Hg Ha]%unknown_name_split.
    rewrite bool_decide_eq_false_2 by done.
    rewrite bool_decide_eq_false_2 by done. done.
  - intros Hin. pose proof (aws_name_not_google _ Hin) as Hno.
    rewrite bool_decide_eq_false_2 by done.
    rewrite bool_decide_eq_true_2 by done.
    by destruct (api_connect _ _).
Qed.

End InitFacts.

Lemma init_unsupported_backend_is_deferred_witness :
  (∃ q, __init__ (api := memq_api) (PStr "us-east-1") "jobs" "Google" PNone PNone 0 PNone
          = Ret q ∧
        _api q = NotImplementedInstance
                   (NotImplementedError
                      "Google Cloud Tasks are not supported at this time.") ∧
        (∀ (w : world memq) seconds num_tasks tag, ∃ msg,
           lease (api := memq_api) deserialize_by_name q seconds num_tasks tag w
             = (Raise (AttributeError msg), w)) ∧
        (0%nat = 0%nat → ∀ (w : world memq) task, ∃ msg,
           insert (api := memq_api) q task w = (Raise (AttributeError msg), w))) ∧
  __init__ (api := memq_api) (PStr "us-east-1") "jobs" "rabbitmq" PNone PNone 0 PNone
    = Raise (NotImplementedError "Unknown server rabbitmq") ∧
  __init__ (api := memq_api) (PStr "us-east-1") "jobs" "SQS" PNone PNone 0 PNone
    = Ret (mkTaskQueue PNone PNone "jobs" "SQS" PNone
             (AWSTaskQueueAPI (PStr "jobs") (PStr "us-east-1")) 0).
Proof.
  split_and!.
  - apply (init_unsupported_backend_is_deferred (api := memq_api) deserialize_by_name
             (PStr "us-east-1") "jobs" "Google" PNone PNone 0 PNone).
    apply list_elem_of_In. vm_compute. tauto.
  - apply (init_unsupported_backend_is_deferred (api := memq_api) deserialize_by_name
             (PStr "us-east-1") "jobs" "rabbitmq" PNone PNone 0 PNone).
    rewrite list_elem_of_In. vm_compute.
    intros [? | [? | [? | [? | []]]]]; discriminate.
  - apply (init_unsupported_backend_is_deferred (api := memq_api) deserialize_by_name
             (PStr "us-east-1") "jobs" "SQS" PNone PNone 0 PNone).
    apply list_elem_of_In. vm_compute. tauto.
Defined.

(** ** [purge] *)

Section PurgeFacts.
Context {B : Type} {api : QueueAPI B}.
Variable deserialize : pyval → outcome Task.

(** With a thread pool, the loop over the listed tasks only submits the
    deletes. *)
Lemma delete_each_submits self lst (w : world B) :
  _threads self ≠ 0%nat →
  delete_each self lst w
  = (Ret tt, World (backend w) (_queue w ++ deletes_of lst) (calls w)).
Proof.
  intros Hthreads. revert w. induction lst as [| task rest IH]; intros w.
  - cbn. rewrite app_nil_r. by destruct w.
  - unfold delete_each in *. cbn [for_each]. unfold bind at 1.
    unfold delete at 1, bind, ret.
    destruct (Nat.eqb_spec (_threads self) 0) as [| _]; [done |].
    cbn. rewrite IH. cbn. by rewrite <- app_assoc.
Qed.

(** Draining the pool runs every submitted call on the backend. *)
Lemma run_pending_calls h cs err (w : world B) :
  (∃ qurl region, h = AWSTaskQueueAPI qurl region) →
  (∀ c, c ∈ cs → c ≠ ApiPurge) →
  _queue w = [] →
  calls (snd (run_pending h cs err w)) = calls w ++ cs ∧
  _queue (snd (run_pending h cs err w)) = [].
Proof.
  intros (qurl & region & ->). revert err w.
  induction cs as [| c rest IH]; intros err w Hnop Hq.
  - cbn. by rewrite app_nil_r.
  - cbn [run_pending].
    destruct (run_call (AWSTaskQueueAPI qurl region) c w) as [r w1] eqn:Hrun.
    assert (calls w1 = calls w ++ [c] ∧ _queue w1 = []) as [Hc1 Hq1].
    { assert (c ≠ ApiPurge) by (apply Hnop; left).
      destruct c; cbn in Hrun; unfold bind, ret in Hrun;
        rewrite ?via_api_client in Hrun;
        repeat case_match; simplify_eq; cbn; done. }
    destruct (IH (match err with Some e => Some e | None => raised r end) w1)
      as [Hc Hq']; [intros; apply Hnop; by right | done |].
    rewrite Hc, Hq', Hc1, <- app_assoc. done.
Qed.

(** Without a pool every delete is made on the spot. *)
Lemma delete_each_calls self lst qurl region (w w' : world B) :
  _threads self = 0%nat →
  _api self = AWSTaskQueueAPI qurl region →
  delete_each self lst w = (Ret tt, w') →
  calls w' = calls w ++ deletes_of lst ∧ _queue w' = _queue w.
Proof.
  intros Hthreads Hapi. revert w. induction lst as [| task rest IH]; intros w Hrun.
  - cbn in Hrun. unfold ret in Hrun. simplify_eq. by rewrite app_nil_r.
  - unfold delete_each in *. cbn [for_each] in Hrun. unfold bind at 1 in Hrun.
    unfold delete at 1, bind, ret in Hrun.
    rewrite Hthreads, Hapi in Hrun. cbn [Nat.eqb negb run_call id_of] in Hrun.
    rewrite via_api_client in Hrun.
    destruct (fst (api_delete (_id task) (backend w))); [| done].
    apply IH in Hrun as [Hc Hq]. cbn in Hc, Hq.
    rewrite Hc, Hq, <- app_assoc. done.
Qed.

(** One round of the fallback that does not raise: every listed task has
    had its delete made on the backend, and nothing is left in the pool. *)
Lemma purge_round_calls self lst qurl region r (w w' : world B) :
  _api self = AWSTaskQueueAPI qurl region →
  _queue w = [] →
  (delete_each self lst ;;; wait self)%py w = (r, w') →
  (∀ q, r = Ret q → q = self) ∧
  (_threads self ≠ 0%nat ∨ (∃ q, r = Ret q) →
   calls w' = calls w ++ deletes_of lst ∧ _queue w' = []).
Proof.
  intros Hapi Hq Hrun. unfold bind in Hrun.
  destruct (decide (_threads self = 0%nat)) as [Hthreads | Hthreads].
  - destruct (delete_each self lst w) as [[[] | e] w1] eqn:Heach.
    + destruct (delete_each_calls _ _ _ _ _ _ Hthreads Hapi Heach) as [Hc Hq1].
      unfold wait in Hrun. rewrite Hq1, Hq in Hrun. cbn in Hrun. simplify_eq.
      split; [by intros q [= <-] |]. intros _. done.
    + simplify_eq. split; [done |]. intros [? | [q ?]]; done.
  - rewrite delete_each_submits in Hrun by done.
    unfold wait in Hrun. cbn [_queue backend calls] in Hrun.
    rewrite Hq, app_nil_l in Hrun.
    destruct (run_pending (_api self) (deletes_of lst) None
                (World (backend w) [] (calls w))) as [err w1] eqn:Hpend.
    assert (calls w1 = calls w ++ deletes_of lst ∧ _queue w1 = []) as Hw1.
    { pose proof (run_pending_calls (_api self) (deletes_of lst) None
                    (World (backend w) [] (calls w))) as Hp.
      rewrite Hpend in Hp. apply Hp; [by eauto | | done].
      intros c (task & -> & _)%list_elem_of_fmap. done. }
    destruct err; simplify_eq; (split; [by try intros q [= <-] | done]).
Qed.

(** C7. When evaluating [self._api.purge()] signals that there is no such
    method (an [AttributeError]), [purge] is the fallback loop: it lists the
    tasks, stops and returns [self] when the list is empty, and otherwise
    deletes each listed task, waits for the pool to drain and goes round
    again; after a round every listed task has had its delete made and the
    pool is empty. When the backend has [purge] and the call returns, that
    call is the only one made and its value is returned. *)
Theorem purge_backend_or_fallback (fuel : nat) (self : TaskQueue) (w : world B) :
  (∀ e w', call_purge self w = (Raise e, w') → isinstance e "AttributeError" = true →
     purge deserialize fuel self w = purge_fallback deserialize fuel self w') ∧
  (api_purge = None → purge deserialize fuel self w = purge_fallback deserialize fuel self w) ∧
  (∀ op qurl region v b', api_purge = Some op →
     _api self = AWSTaskQueueAPI qurl region →
     op (backend w) = (Ret v, b') →
     purge deserialize fuel self w
       = Some (Ret (RVal v), World b' (_queue w) (calls w ++ [ApiPurge]))) ∧
  (∀ w1, list_ deserialize self w = (Ret [], w1) →
     purge_fallback deserialize (S fuel) self w = Some (Ret (RSelf self), w1)) ∧
  (∀ task rest w1 q w2 qurl region,
     list_ deserialize self w = (Ret (task :: rest), w1) →
     (delete_each self (task :: rest) ;;; wait self)%py w1 = (Ret q, w2) →
     _api self = AWSTaskQueueAPI qurl region →
     _queue w1 = [] →
     purge_fallback deserialize (S fuel) self w = purge_fallback deserialize fuel self w2 ∧
     calls w2 = calls w1 ++ deletes_of (task :: rest) ∧ _queue w2 = []).
Proof.
  split_and!.
  - intros e w' Hcall Hattr. unfold purge. rewrite Hcall.
    cbn [except_matches existsb]. by rewrite Hattr.
  - intros Hnone. unfold purge, call_purge. rewrite Hnone.
    by destruct (_api self).
  - intros op qurl region v b' Hsome Hapi Hop. unfold purge, call_purge.
    rewrite Hsome, Hapi, via_api_client, Hop. done.
  - intros w1 Hlist. cbn [purge_fallback]. by rewrite Hlist.
  - intros task rest w1 q w2 qurl region Hlist Hround Hapi Hq.
    split.
    + cbn [purge_fallback]. rewrite Hlist. cbn [length Nat.eqb].
      unfold delete_each in Hround. by rewrite Hround.
    + eapply purge_round_calls; eauto.
Qed.

End PurgeFacts.

Example purge_fallback_empties_memq :
  purge (api := memq_api) deserialize_by_name 3 (sqs_queue 40)
        (fresh_world (memq_with ["PrintTask"; "MockTask"] None))
  = Some (Ret (RSelf (sqs_queue 40)),
          World (MemQ [] 2 None) []
                [ApiList; ApiDelete (PInt 0); ApiDelete (PInt 1); ApiList]).
Proof. vm_compute. reflexivity. Qed.

Lemma purge_backend_or_fallback_witness :
  let w := fresh_world (memq_with ["PrintTask"; "MockTask"] None) in
  let w1 := World (memq_with ["PrintTask"; "MockTask"] None) [] [ApiList] in
  let w2 := World (MemQ [] 2 None) []
              [ApiList; ApiDelete (PInt 0); ApiDelete (PInt 1)] in
  purge (api := memq_api) deserialize_by_name 3 (sqs_queue 40) w
    = purge_fallback (api := memq_api) deserialize_by_name 3 (sqs_queue 40) w ∧
  purge (api := memq_api_with_purge) deserialize_by_name 3 (sqs_queue 40) w
    = Some (Ret (RVal PNone), World (MemQ [] 2 None) [] [ApiPurge]) ∧
  purge_fallback (api := memq_api) deserialize_by_name 1 (sqs_queue 40)
      (fresh_world (memq_with [] None))
    = Some (Ret (RSelf (sqs_queue 40)), World (memq_with [] None) [] [ApiList]) ∧
  (purge_fallback (api := memq_api) deserialize_by_name 3 (sqs_queue 40) w
     = purge_fallback (api := memq_api) deserialize_by_name 2 (sqs_queue 40) w2 ∧
   calls w2 = calls w1
              ++ deletes_of [mkTask "PrintTask" (PStr "PrintTask") (PInt 0);
                             mkTask "MockTask" (PStr "MockTask") (PInt 1)] ∧
   _queue w2 = []).
Proof.
  intros w w1 w2. split; [| split; [| split]].
  - exact (proj1 (proj2 (purge_backend_or_fallback (api := memq_api)
             deserialize_by_name 3 (sqs_queue 40) w)) eq_refl).
  - exact (proj1 (proj2 (proj2 (purge_backend_or_fallback (api := memq_api_with_purge)
             deserialize_by_name 3 (sqs_queue 40) w)))
             memq_purge (PStr "jobs") (PStr "us-east-1") PNone (MemQ [] 2 None)
             eq_refl eq_refl eq_refl).
  - exact (proj1 (proj2 (proj2 (proj2 (purge_backend_or_fallback (api := memq_api)
             deserialize_by_name 0 (sqs_queue 40) (fresh_world (memq_with [] None))))))
             (World (memq_with [] None) [] [ApiList]) eq_refl).
  - exact (proj2 (proj2 (proj2 (proj2 (purge_backend_or_fallback (api := memq_api)
             deserialize_by_name 2 (sqs_queue 40) w))))
             (mkTask "PrintTask" (PStr "PrintTask") (PInt 0))
             [mkTask "MockTask" (PStr "MockTask") (PInt 1)]
             w1 (sqs_queue 40) w2 (PStr "jobs") (PStr "us-east-1")
             eq_refl eq_refl eq_refl eq_refl).
Defined.

(** ** The backoff window *)

Lemma window_high_nonneg minw maxw n :
  0 < maxw → (0 <= window_high minw maxw n)%Q.
Proof.
  intros Hmax. unfold window_high. apply Q.min_glb.
  - apply Qpower_0_le. done.
  - change 0%Q with (inject_Z 0). rewrite <- Zle_Qle. lia.
Qed.

Lemma uniform_within (high u : Q) :
  (0 <= high)%Q → (0 <= u)%Q → (u <= 1)%Q →
  (0 <= uniform 0 high u)%Q ∧ (uniform 0 high u <= high)%Q.
Proof.
  intros Hhigh Hu0 Hu1. unfold uniform. split; nra.
Qed.

Lemma backoff_within minw maxw n u :
  0 < maxw → (0 <= u)%Q → (u <= 1)%Q →
  (0 <= random_exponential_window_backoff minw maxw n u)%Q ∧
  (random_exponential_window_backoff minw maxw n u <= window_high minw maxw n)%Q.
Proof.
  intros Hmax Hu0 Hu1. apply uniform_within; [| done | done].
  by apply window_high_nonneg.
Qed.

(** The window never exceeds the ceiling nor two to the capped exponent. *)
Lemma window_high_caps minw maxw n :
  (window_high minw maxw n <= inject_Z maxw)%Q ∧
  (window_high minw maxw n <= Qpower (2 # 1) minw)%Q.
Proof.
  unfold window_high. split.
  - apply Q.le_min_r.
  - eapply Qle_trans; [apply Q.le_min_l |].
    apply Qpower_le_compat_l; [lia | done].
Qed.

(** ** The worker loop *)

(** Symbolic execution of one pass of the loop: unfold the monad and split
    on what the surroundings did. *)
Ltac run_pass :=
  unfold poll_iteration, poll_try, try_except, poll_body, call_stop_fn, sleep,
    effect, emit, set_tries, set_executed, set_backoff, in_world, bind, ret,
    raise, lift, modify, gets in *;
  repeat (case_match; simplify_eq; cbn [p_world tries executed backoff events fst snd] in * ).

(** The same, looking into [lease] and [delete] as well. *)
Ltac run_pass_deep :=
  unfold poll_iteration, poll_try, try_except, poll_body, call_stop_fn, sleep,
    effect, emit, set_tries, set_executed, set_backoff, in_world, lease, delete,
    put, run_call, via_api, bind, ret, raise, lift, modify, gets in *;
  repeat (case_match; simplify_eq;
          cbn [p_world tries executed backoff events fst snd backend _queue calls] in * ).

Section PollFacts.
Context {B : Type} {api : QueueAPI B}.
Variable deserialize : pyval → outcome Task.
Variable self : TaskQueue.
Variable lease_seconds : Z.
Variable stop_fn : stop_fn_arg.
Variable backoff_exceptions : list string.
Variables min_backoff_window max_backoff_window : Z.
Variable log_fn : log_fn_arg.

Local Abbreviation pass := (poll_iteration deserialize self lease_seconds stop_fn
                    backoff_exceptions min_backoff_window max_backoff_window log_fn).
Local Abbreviation loop := (poll_loop deserialize self lease_seconds stop_fn
                    backoff_exceptions min_backoff_window max_backoff_window log_fn).
Local Abbreviation run := (poll deserialize self lease_seconds stop_fn
                   backoff_exceptions min_backoff_window max_backoff_window log_fn).

Lemma pass_sleeps_within (it : iteration) (s : poll_state B) :
  0 < max_backoff_window →
  (0 <= it_random it)%Q → (it_random it <= 1)%Q →
  Forall (sleep_within min_backoff_window max_backoff_window) (events s) →
  Forall (sleep_within min_backoff_window max_backoff_window) (events (snd (pass it s))).
Proof.
  intros Hmax Hu0 Hu1 Hs.
  destruct (pass it s) as [r s'] eqn:Hpass. cbn [snd].
  pose proof (backoff_within min_backoff_window max_backoff_window
                (Z.of_nat (tries s)) (it_random it) Hmax Hu0 Hu1).
  pose proof (backoff_within min_backoff_window max_backoff_window
                (Z.of_nat (tries s + 1)) (it_random it) Hmax Hu0 Hu1).
  pose proof (backoff_within min_backoff_window max_backoff_window
                (Z.of_nat 0) (it_random it) Hmax Hu0 Hu1).
  run_pass; rewrite ?Forall_app, ?Forall_cons, ?Forall_nil; cbn; tauto.
Qed.

Lemma loop_sleeps_within (script : list iteration) (s : poll_state B) :
  0 < max_backoff_window →
  Forall (fun it => (0 <= it_random it)%Q ∧ (it_random it <= 1)%Q) script →
  Forall (sleep_within min_backoff_window max_backoff_window) (events s) →
  Forall (sleep_within min_backoff_window max_backoff_window)
         (events (snd (loop script s))).
Proof.
  intros Hmax Hdraws. revert s.
  induction Hdraws as [| it rest [Hu0 Hu1] _ IH]; intros s Hs; [done |].
  cbn [poll_loop]. destruct (it_LOOP it); [| done].
  pose proof (pass_sleeps_within it s Hmax Hu0 Hu1 Hs) as Hpass.
  destruct (pass it s) as [[[] | e] s']; cbn [snd] in *; auto.
Qed.

Lemma run_events (script : list iteration) (w : world B) :
  events (snd (run script w)) = events (snd (loop script (poll_init w))) ∨
  events (snd (run script w)) = [].
Proof.
  unfold poll. destruct (loop script (poll_init w)) as [[[[] | e] |] s];
    destruct stop_fn; (by left) || (by right).
Qed.

(** C3. With a positive ceiling and a draw of [random()] in the unit
    interval, the sleep computed after [n] tries lies between 0 and
    min(2^min(n, min_backoff_window), max_backoff_window), hence below the
    ceiling and below two to the capped exponent; and every sleep of a run of
    [poll] lies in the window of the retry count it was computed from. *)
Theorem backoff_sleep_within_window :
  0 < min_backoff_window → 0 < max_backoff_window →
  (∀ (n : Z) (u : Q), (0 <= u)%Q → (u <= 1)%Q →
     let d := random_exponential_window_backoff
                min_backoff_window max_backoff_window n u in
     (0 <= d)%Q ∧
     (d <= Qmin (Qpower (2 # 1) (Z.min n min_backoff_window))
                (inject_Z max_backoff_window))%Q ∧
     (d <= inject_Z max_backoff_window)%Q ∧
     (d <= Qpower (2 # 1) min_backoff_window)%Q) ∧
  (∀ (script : list iteration) (w : world B),
     Forall (fun it => (0 <= it_random it)%Q ∧ (it_random it <= 1)%Q) script →
     Forall (sleep_within min_backoff_window max_backoff_window)
            (events (snd (run script w)))).
Proof.
  intros _ Hmax. split.
  - intros n u Hu0 Hu1 d.
    destruct (backoff_within min_backoff_window max_backoff_window n u Hmax Hu0 Hu1)
      as [Hlow Hhigh].
    destruct (window_high_caps min_backoff_window max_backoff_window n)
      as [Hceil Hexp].
    fold d in Hlow, Hhigh. split_and!; [done | done | |]; eapply Qle_trans; eauto.
  - intros script w Hdraws.
    destruct (run_events script w) as [-> | ->]; [| done].
    by apply loop_sleeps_within.
Qed.

(** *** What the returned count counts *)













(** *** The empty queue *)

Lemma queue_empty_is_caught :
  except_matches (backoff_exceptions ++ ["TaskQueue.QueueEmpty"]) QueueEmpty = true.
Proof.
  unfold except_matches. rewrite existsb_app. apply orb_true_iff. right.
  reflexivity.
Qed.

(** C5. Whatever list of exceptions the caller passes, a [QueueEmpty]
    raised by [lease] is caught by the [try] statement: the pass goes on with
    [backoff] set and both counters as they were; and when [stop_fn] returns
    and the sleep is not negative the whole pass ends without raising, so the
    loop goes on or breaks but nothing reaches the caller of [poll]. *)
Theorem queue_empty_is_absorbed (it : iteration) (s : poll_state B) (w' : world B) :
  lease deserialize self lease_seconds 1 PNone (p_world s) = (Raise QueueEmpty, w') →
  poll_try deserialize self lease_seconds backoff_exceptions log_fn it s
    = (Ret tt, PollState w' (tries s) (executed s) true
                 (events s ++ [BackedOff QueueEmpty])) ∧
  (0 < max_backoff_window → (0 <= it_random it)%Q → (it_random it <= 1)%Q →
   ∀ stop, it_stop it = Ret stop →
   ∃ f s', pass it s = (Ret f, s') ∧ tries s' = tries s ∧ executed s' = executed s).
Proof.
  intros Hlease.
  assert (Htry : poll_try deserialize self lease_seconds backoff_exceptions log_fn it s
            = (Ret tt, PollState w' (tries s) (executed s) true
                         (events s ++ [BackedOff QueueEmpty]))).
  { unfold poll_try, try_except, poll_body. unfold bind at 1. unfold in_world.
    rewrite Hlease, queue_empty_is_caught. reflexivity. }
  split; [done |].
  intros Hmax Hu0 Hu1 stop Hstop.
  destruct (backoff_within min_backoff_window max_backoff_window
              (Z.of_nat (tries s)) (it_random it) Hmax Hu0 Hu1) as [Hd _].
  apply Qle_bool_iff in Hd.
  unfold poll_iteration. unfold bind at 1. rewrite Htry.
  unfold call_stop_fn, sleep, bind, lift, ret, gets, set_backoff, emit, modify.
  destruct stop_fn; rewrite ?Hstop; try destruct stop;
    cbn [tries backoff executed events p_world]; rewrite ?Hd; eauto.
Qed.

End PollFacts.


(** With a thread pool the count is no better evidence of acknowledgement:
    the delete of the counted task is only queued when [poll] returns, and
    when the pool is drained the backend refuses it and the task is still
    stored. *)
Example poll_with_pool_counts_queued_delete :
  let r := poll (api := memq_api) deserialize_by_name (sqs_queue 40) 300 StopCallable
             ["ClientError"] 30 120 LogNone [quiet_pass true]
             (fresh_world (memq_with ["PrintTask"] (Some ClientError))) in
  let drained := wait (api := memq_api) (sqs_queue 40) (p_world (snd r)) in
  fst r = Some (Ret 1%nat) ∧
  _queue (p_world (snd r)) = [ApiDelete (PInt 0)] ∧
  completed_cycles (sqs_queue 40) (events (snd r)) = 0%nat ∧
  fst drained = Raise ClientError ∧
  backend (snd drained) = memq_with ["PrintTask"] (Some ClientError).
Proof. vm_compute. split_and!; done. Qed.


(** C2. On an empty queue [tries] is never incremented: [lease] raises
    before [tries += 1] is reached, so after three empty passes in a row the
    backoff window was computed from 0 each time, not from 1, 2, 3. When it
    is [execute] that raises a listed exception the counter does go 1, 2, 3. *)
Theorem poll_empty_queue_keeps_tries_at_zero :
  let empty := poll (api := memq_api) deserialize_by_name (sqs_queue 0) 300 StopNone
                 [] 30 120 LogNone [quiet_pass false; quiet_pass false; quiet_pass false]
                 (fresh_world (memq_with [] None)) in
  let failing := poll (api := memq_api) deserialize_by_name (sqs_queue 0) 300 StopNone
                 ["ClientError"] 30 120 LogNone
                 [failing_pass ClientError; failing_pass ClientError;
                  failing_pass ClientError]
                 (fresh_world (memq_with ["PrintTask"] None)) in
  fst empty = None ∧
  backoff_counts (events (snd empty)) = [0; 0; 0]%nat ∧
  tries (snd empty) = 0%nat ∧
  backoff_counts (events (snd failing)) = [1; 2; 3]%nat.
Proof. vm_compute. split_and!; done. Qed.

Lemma backoff_sleep_within_window_witness :
  ((0 <= random_exponential_window_backoff 1 2 5 (1 # 2))%Q ∧
   (random_exponential_window_backoff 1 2 5 (1 # 2)
      <= Qmin (Qpower (2 # 1) (Z.min 5 1)) (inject_Z 2))%Q ∧
   (random_exponential_window_backoff 1 2 5 (1 # 2) <= inject_Z 2)%Q ∧
   (random_exponential_window_backoff 1 2 5 (1 # 2) <= Qpower (2 # 1) 1)%Q) ∧
  Forall (sleep_within 1 2)
    (events (snd (poll (api := memq_api) deserialize_by_name (sqs_queue 0) 300 StopNone
                    [] 1 2 LogNone [quiet_pass false; quiet_pass false]
                    (fresh_world (memq_with [] None))))).
Proof.
  destruct (backoff_sleep_within_window (api := memq_api) deserialize_by_name
              (sqs_queue 0) 300 StopNone [] 1 2 LogNone) as [Hfun Hrun];
    [lia | lia |].
  split.
  - apply (Hfun 5 (1 # 2)); unfold Qle; simpl; lia.
  - apply Hrun. repeat constructor; unfold Qle; simpl; lia.
Defined.

Lemma queue_empty_is_absorbed_witness :
  let s := poll_init (fresh_world (memq_with [] None)) in
  poll_try (api := memq_api) deserialize_by_name (sqs_queue 0) 300 [] LogNone
           (quiet_pass false) s
    = (Ret tt, PollState (World (memq_with [] None) [] [ApiLease 1 300 false PNone])
                 0 0 true [BackedOff QueueEmpty]) ∧
  ∃ f s', poll_iteration (api := memq_api) deserialize_by_name (sqs_queue 0) 300
            StopCallable [] 30 120 LogNone (quiet_pass false) s = (Ret f, s') ∧
          tries s' = 0%nat ∧ executed s' = 0%nat.
Proof.
  intros s. split.
  - apply (queue_empty_is_absorbed (api := memq_api) deserialize_by_name (sqs_queue 0)
             300 StopCallable [] 30 120 LogNone (quiet_pass false) s
             (World (memq_with [] None) [] [ApiLease 1 300 false PNone]) eq_refl).
  - apply (proj2 (queue_empty_is_absorbed (api := memq_api) deserialize_by_name
             (sqs_queue 0) 300 StopCallable [] 30 120 LogNone (quiet_pass false) s
             (World (memq_with [] None) [] [ApiLease 1 300 false PNone]) eq_refl)
             ltac:(lia) ltac:(unfold Qle; simpl; lia) ltac:(unfold Qle; simpl; lia)
             false eq_refl).
Defined.

(** ** The local queues *)

Section MockFacts.
Variable behaviour : Task → option exn.

(** C8. [MockTaskQueue.insert] runs the task on the spot: when it returns,
    the task's [execute] has returned, and the queue object, which has no
    attribute, holds nothing. [poll], [wait] and [kill_threads] change
    nothing and return [self]. *)
Theorem mock_insert_runs_task_at_once (self : MockTaskQueue.t) (task : Task)
    (ran : list Task) :
  (behaviour task = None →
     MockTaskQueue.insert behaviour self task ran = (Ret tt, ran ++ [task])) ∧
  (∀ r ran', MockTaskQueue.insert behaviour self task ran = (Ret r, ran') →
     ran' = ran ++ [task]) ∧
  self = MockTaskQueue.Mock ∧
  MockTaskQueue.poll self ran = (Ret self, ran) ∧
  MockTaskQueue.wait self ran = (Ret self, ran) ∧
  MockTaskQueue.kill_threads self ran = (Ret self, ran).
Proof.
  unfold MockTaskQueue.insert, task_execute. split_and!; try done.
  - by intros ->.
  - intros r ran'. destruct (behaviour task); by intros [= <- <-].
  - by destruct self.
Qed.
End MockFacts.

Section LocalFacts.
Import LocalTaskQueue.
Variable behaviour : Task → option exn.
Variable cpu_count : Z.

Lemma pool_runs_all fuel workers schedule running waiting finished ran :
  (0 < workers)%nat →
  (∀ x, x ∈ running ++ waiting → behaviour (snd x) = None) →
  (length running + length waiting <= fuel)%nat →
  pool behaviour fuel workers schedule None running waiting finished ran
  ≡ₚ ran ++ (snd <$> (running ++ waiting)).
Proof.
  intros Hworkers. revert schedule running waiting finished ran.
  induction fuel as [| fuel IH]; intros schedule running waiting finished ran Hok Hlen.
  - destruct running, waiting; cbn in Hlen; try lia. cbn. by rewrite app_nil_r.
  - cbn [pool cancelled].
    set (idle := (workers - length running)%nat).
    set (running1 := running ++ take idle waiting).
    set (waiting2 := drop idle waiting).
    assert (Hsame : running1 ++ waiting2 = running ++ waiting).
    { unfold running1, waiting2. by rewrite <- app_assoc, take_drop. }
    set (c := (hd 0%nat schedule mod length running1)%nat).
    destruct (running1 !! c) as [[i task] |] eqn:Hlook.
    + assert (Htask : behaviour task = None).
      { apply (Hok (i, task)). rewrite <- Hsame. apply elem_of_app. left.
        by eapply list_elem_of_lookup_2. }
      unfold task_execute. rewrite Htask. cbn [snd].
      rewrite IH.
      * rewrite <- Hsame, <- app_assoc. f_equiv.
        rewrite !fmap_app.
        rewrite (delete_Permutation running1 c (i, task) Hlook) at 2.
        cbn. done.
      * intros x Hx. apply Hok. rewrite <- Hsame.
        apply elem_of_app in Hx as [Hx | Hx]; apply elem_of_app; [left | by right].
        rewrite (delete_Permutation running1 c (i, task) Hlook). by right.
      * rewrite length_delete by eauto.
        assert (length running1 + length waiting2 = length running + length waiting)%nat
          by (by rewrite <- !length_app, Hsame).
        apply lookup_lt_Some in Hlook. lia.
    + assert (running1 = []) as Hnil.
      { destruct running1 as [| x l] eqn:Hr; [done |].
        assert (c < length (x :: l))%nat as Hc
          by (apply Nat.mod_upper_bound; cbn; lia).
        apply lookup_lt_is_Some in Hc. rewrite Hlook in Hc. by destruct Hc. }
      unfold running1 in Hnil. apply app_eq_nil in Hnil as [-> Htake].
      unfold idle in Htake. cbn in Htake. rewrite Nat.sub_0_r in Htake.
      destruct waiting; [by rewrite app_nil_r |].
      destruct workers; [lia | done].
Qed.

Lemma number_snd i q : snd <$> number i q = q.
Proof. revert i. induction q as [| t q IH]; intros i; cbn; [done |]. by rewrite IH. Qed.

Lemma number_length i q : length (number i q) = length q.
Proof. revert i. induction q as [| t q IH]; intros i; cbn; [done |]. by rewrite IH. Qed.

Lemma first_failure_none i q :
  (∀ t, t ∈ q → behaviour t = None) → first_failure behaviour i q = None.
Proof.
  revert i. induction q as [| t q IH]; intros i Hok; cbn; [done |].
  rewrite (Hok t) by left. apply IH. intros; apply Hok; by right.
Qed.

(** C9. [LocalTaskQueue.insert] appends the task to the buffer, unchanged
    and without running it. The pool has as many processes as [parallel]
    says, the machine's core count standing for [True]. When that number is
    positive and no task raises, [__exit__] returns with the buffer empty,
    and the tasks that ran on the pool are the buffered ones, each once, in
    an order that depends on the schedule. *)
Theorem local_queue_drains_each_task_once (s : state) (task : Task)
    (schedule : list nat) (progress : bool) :
  insert task s
    = (Ret tt, State (Local (parallel (self s)) (queue (self s) ++ [task])
                            (LocalTaskQueue.progress (self s)))
                     (ran s)) ∧
  __init__ cpu_count (ParBool true) progress = Local (ParInt cpu_count) [] progress ∧
  (∀ n, __init__ cpu_count (ParInt n) progress = Local (ParInt n) [] progress) ∧
  (0 < max_workers (parallel (self s)) →
   (∀ t, t ∈ queue (self s) → behaviour t = None) →
   ∃ ran',
     ran' = pool behaviour (length (queue (self s)))
              (Z.to_nat (max_workers (parallel (self s)))) schedule None
              [] (number 0 (queue (self s))) [] (ran s) ∧
     __exit__ behaviour schedule s
       = (Ret tt, State (Local (parallel (self s)) [] (LocalTaskQueue.progress (self s)))
                        ran') ∧
     ran' ≡ₚ ran s ++ queue (self s)).
Proof.
  split_and!.
  - reflexivity.
  - reflexivity.
  - intros n. unfold __init__. cbn. by rewrite andb_false_r.
  - intros Hworkers Hok. eexists. split; [reflexivity |]. split.
    + unfold __exit__. destruct (Z.leb_spec (max_workers (parallel (self s))) 0); [lia |].
      by rewrite first_failure_none.
    + rewrite pool_runs_all; [| lia | | by rewrite number_length].
      * by rewrite app_nil_l, number_snd.
      * intros [i t] Hin. apply Hok. rewrite <- (number_snd 0 (queue (self s))).
        apply list_elem_of_fmap. by exists (i, t).
Qed.
End LocalFacts.

Lemma mock_insert_runs_task_at_once_witness :
  MockTaskQueue.insert (fun _ => None) MockTaskQueue.Mock
    (mkTask "PrintTask" (PStr "PrintTask") PNone) []
  = (Ret tt, [mkTask "PrintTask" (PStr "PrintTask") PNone]).
Proof.
  apply (mock_insert_runs_task_at_once (fun _ => None) MockTaskQueue.Mock
           (mkTask "PrintTask" (PStr "PrintTask") PNone) []).
  reflexivity.
Defined.

Example local_queue_five_tasks :
  LocalTaskQueue.__exit__ (fun _ => None) [1; 0; 1; 1; 0]%nat
    (LocalTaskQueue.State (LocalTaskQueue.Local (LocalTaskQueue.ParInt 2) five_tasks true) [])
  = (Ret tt,
     LocalTaskQueue.State (LocalTaskQueue.Local (LocalTaskQueue.ParInt 2) [] true)
       ((fun i => mkTask "MockTask" (PInt i) PNone) <$> [2; 1; 4; 5; 3])).
Proof. vm_compute. reflexivity. Qed.

(** A task that raises leaves the buffer as it was. *)
Example local_queue_failure_keeps_buffer :
  let behaviour (t : Task) :=
    if bool_decide (payload t = PInt 2) then Some (ValueError "bad task") else None in
  let s := LocalTaskQueue.State
             (LocalTaskQueue.Local (LocalTaskQueue.ParInt 1) five_tasks true) [] in
  fst (LocalTaskQueue.__exit__ behaviour [] s) = Raise (ValueError "bad task") ∧
  LocalTaskQueue.queue (LocalTaskQueue.self (snd (LocalTaskQueue.__exit__ behaviour [] s)))
    = five_tasks.
Proof. vm_compute. split; reflexivity. Qed.

Lemma local_queue_drains_each_task_once_witness :
  ∃ ran',
    ran' = LocalTaskQueue.pool (fun _ => None) 5 2 [1; 0; 1; 1; 0]%nat None []
             (LocalTaskQueue.number 0 five_tasks) [] [] ∧
    LocalTaskQueue.__exit__ (fun _ => None) [1; 0; 1; 1; 0]%nat
      (LocalTaskQueue.State
         (LocalTaskQueue.Local (LocalTaskQueue.ParInt 2) five_tasks true) [])
    = (Ret tt,
       LocalTaskQueue.State (LocalTaskQueue.Local (LocalTaskQueue.ParInt 2) [] true) ran') ∧
    ran' ≡ₚ [] ++ five_tasks.
Proof.
  apply (local_queue_drains_each_task_once (fun _ => None) 8
           (LocalTaskQueue.State
              (LocalTaskQueue.Local (LocalTaskQueue.ParInt 2) five_tasks true) [])
           (mkTask "PrintTask" (PStr "PrintTask") PNone) [1; 0; 1; 1; 0]%nat true).
  - simpl. lia.
  - intros t _. reflexivity.
Defined.

(** ** More on the worker loop *)

Lemma leases_since_success_snoc evs ev :
  leases_since_success (evs ++ [ev]) = tries_after (leases_since_success evs) ev.
Proof. unfold leases_since_success. by rewrite fold_left_app. Qed.

Lemma sleeps_snoc evs ev :
  sleeps (evs ++ [ev]) = (sleeps evs + (if is_slept ev then 1 else 0))%nat.
Proof.
  unfold sleeps. rewrite List.filter_app, length_app. cbn. by destruct (is_slept ev).
Qed.

Lemma backoffs_snoc evs ev :
  backoffs (evs ++ [ev]) = (backoffs evs + (if is_backed_off ev then 1 else 0))%nat.
Proof.
  unfold backoffs. rewrite List.filter_app, length_app. cbn.
  by destruct (is_backed_off ev).
Qed.

Lemma no_lease_no_tries evs :
  existsb is_leased evs = false → leases_since_success evs = 0%nat.
Proof.
  induction evs as [| ev evs IH] using rev_ind; [done |].
  rewrite existsb_app, leases_since_success_snoc. cbn.
  intros [Hevs Hev]%orb_false_iff. rewrite IH by done.
  destruct ev; cbn in *; done.
Qed.

Lemma zero_tries_short_sleep minw maxw u :
  0 < maxw → (0 <= u)%Q → (u <= 1)%Q →
  (random_exponential_window_backoff minw maxw (Z.of_nat 0) u <= 1)%Q.
Proof.
  intros Hmax Hu0 Hu1.
  destruct (backoff_within minw maxw (Z.of_nat 0) u Hmax Hu0 Hu1) as [_ Hhigh].
  eapply Qle_trans; [exact Hhigh |]. unfold window_high.
  eapply Qle_trans; [apply Q.le_min_l |].
  change 1%Q with (Qpower (2 # 1) 0).
  apply Qpower_le_compat_l; [lia | done].
Qed.

Section PollMore.
Context {B : Type} {api : QueueAPI B}.
Variable deserialize : pyval → outcome Task.
Variable self : TaskQueue.
Variable lease_seconds : Z.
Variable stop_fn : stop_fn_arg.
Variable backoff_exceptions : list string.
Variables min_backoff_window max_backoff_window : Z.
Variable log_fn : log_fn_arg.

Local Abbreviation pass := (poll_iteration deserialize self lease_seconds stop_fn
                    backoff_exceptions min_backoff_window max_backoff_window log_fn).
Local Abbreviation loop := (poll_loop deserialize self lease_seconds stop_fn
                    backoff_exceptions min_backoff_window max_backoff_window log_fn).
Local Abbreviation run := (poll deserialize self lease_seconds stop_fn
                   backoff_exceptions min_backoff_window max_backoff_window log_fn).

(** Any property of the state that the initial state has and every pass
    keeps holds when the run ends, however it ends. *)
Lemma run_invariant (P : poll_state B → Prop) (script : list iteration) (w : world B) :
  P (poll_init w) →
  (∀ it s, P s → P (snd (pass it s))) →
  P (snd (run script w)).
Proof.
  intros Hinit Hpass.
  assert (Hloop : ∀ s, P s → P (snd (loop script s))).
  { induction script as [| it rest IH]; intros s Hs; [done |].
    cbn [poll_loop]. destruct (it_LOOP it); [| done].
    specialize (Hpass it s Hs).
    destruct (pass it s) as [[[] | e] s']; cbn [snd] in *; auto. }
  specialize (Hloop _ Hinit). unfold poll.
  destruct (loop script (poll_init w)) as [[[[] | e] |] s];
    destruct stop_fn; done.
Qed.

Lemma pass_tries (it : iteration) (s : poll_state B) :
  tries s = leases_since_success (events s) →
  tries (snd (pass it s)) = leases_since_success (events (snd (pass it s))).
Proof.
  intros Ht. destruct (pass it s) as [r s'] eqn:Hpass. cbn [snd].
  run_pass; rewrite ?leases_since_success_snoc; cbn [tries_after]; lia.
Qed.

(** X1. However a run of [poll] ends, the retry counter equals the number of
    tasks leased since the last pass that ran to its end: it moves on a
    successful lease and on nothing else. *)
Theorem poll_tries_counts_leases_since_success (script : list iteration) (w : world B) :
  tries (snd (run script w)) = leases_since_success (events (snd (run script w))).
Proof.
  apply (run_invariant (fun s => tries s = leases_since_success (events s))); [done |].
  apply pass_tries.
Qed.

Lemma pass_short_sleeps (it : iteration) (s : poll_state B) :
  0 < max_backoff_window →
  (0 <= it_random it)%Q → (it_random it <= 1)%Q →
  (tries s = leases_since_success (events s) ∧
   (existsb is_leased (events s) = false → Forall short_sleep (events s))) →
  tries (snd (pass it s)) = leases_since_success (events (snd (pass it s))) ∧
  (existsb is_leased (events (snd (pass it s))) = false →
   Forall short_sleep (events (snd (pass it s)))).
Proof.
  intros Hmax Hu0 Hu1 [Ht Hs]. split; [by apply pass_tries |].
  pose proof (no_lease_no_tries (events s)) as Hzero.
  pose proof (zero_tries_short_sleep min_backoff_window max_backoff_window
                (it_random it) Hmax Hu0 Hu1) as Hshort.
  destruct (pass it s) as [r s'] eqn:Hpass. cbn [snd].
  run_pass; rewrite ?existsb_app; cbn [existsb is_leased];
    rewrite ?orb_true_r, ?orb_false_r; try discriminate;
    intros Hno; specialize (Hs Hno); specialize (Hzero Hno);
    rewrite ?Forall_app, ?Forall_cons, ?Forall_nil; cbn [short_sleep];
    try tauto.
  all: rewrite <- Ht in Hzero; rewrite Hzero; tauto.
Qed.

(** X2. In a run in which no lease ever returned a task, every backoff was
    computed from a retry count of 0 and lasted at most one second, whatever
    the two window arguments are. *)
Theorem poll_without_lease_sleeps_at_most_a_second (script : list iteration)
    (w : world B) :
  0 < max_backoff_window →
  Forall (fun it => (0 <= it_random it)%Q ∧ (it_random it <= 1)%Q) script →
  existsb is_leased (events (snd (run script w))) = false →
  Forall short_sleep (events (snd (run script w))).
Proof.
  intros Hmax Hdraws.
  assert (Hloop : ∀ s,
    (tries s = leases_since_success (events s) ∧
     (existsb is_leased (events s) = false → Forall short_sleep (events s))) →
    existsb is_leased (events (snd (loop script s))) = false →
    Forall short_sleep (events (snd (loop script s)))).
  { induction Hdraws as [| it rest [Hu0 Hu1] _ IH]; intros s Hs; [apply Hs |].
    cbn [poll_loop]. destruct (it_LOOP it); [| apply Hs].
    pose proof (pass_short_sleeps it s Hmax Hu0 Hu1 Hs) as Hpass.
    destruct (pass it s) as [[[] | e] s']; cbn [snd] in *;
      [by apply IH | apply Hpass..]. }
  unfold poll.
  pose proof (Hloop (poll_init w) (conj eq_refl (fun _ => Forall_nil_2 _))) as Hrun.
  destruct (loop script (poll_init w)) as [[[[] | e] |] s];
    destruct stop_fn; cbn [snd] in *; done.
Qed.

Lemma pass_sleeps_backoffs (it : iteration) (s : poll_state B) :
  backoff s = false → sleeps (events s) = backoffs (events s) →
  match pass it s with
  | (Ret Continue, s') => backoff s' = false ∧ sleeps (events s') = backoffs (events s')
  | (_, s') =>
      (sleeps (events s') <= backoffs (events s') <= sleeps (events s') + 1)%nat
  end.
Proof.
  intros Hb Heq. destruct (pass it s) as [r s'] eqn:Hpass.
  run_pass; try congruence;
    rewrite ?sleeps_snoc, ?backoffs_snoc; cbn; try split; try lia; done.
Qed.

(** X3. [poll] sleeps only after a pass that backed off, once per such
    pass: the sleeps never outnumber the backoffs, fall short by at most the
    last pass, and match them while the loop is still running. *)
Theorem poll_sleeps_once_per_backoff (script : list iteration) (w : world B) :
  let r := run script w in
  (sleeps (events (snd r)) <= backoffs (events (snd r)) <= sleeps (events (snd r)) + 1)%nat ∧
  (fst r = None → sleeps (events (snd r)) = backoffs (events (snd r))).
Proof.
  assert (Hloop : ∀ s, backoff s = false → sleeps (events s) = backoffs (events s) →
    (sleeps (events (snd (loop script s))) <= backoffs (events (snd (loop script s)))
       <= sleeps (events (snd (loop script s))) + 1)%nat ∧
    (fst (loop script s) = None →
     sleeps (events (snd (loop script s))) = backoffs (events (snd (loop script s))))).
  { induction script as [| it rest IH]; intros s Hb Heq; cbn [poll_loop fst snd].
    - split; [lia | done].
    - destruct (it_LOOP it); [| cbn; split; [lia | done]].
      pose proof (pass_sleeps_backoffs it s Hb Heq) as Hpass.
      destruct (pass it s) as [[[] | e] s']; cbn [fst snd].
      + destruct Hpass as [Hb' Heq']. by apply IH.
      + split; [lia | done].
      + split; [lia | done]. }
  cbn zeta. unfold poll.
  specialize (Hloop (poll_init w) eq_refl eq_refl).
  destruct Hloop as [Hle Heq].
  destruct (loop script (poll_init w)) as [[[[] | e] |] s];
    destruct stop_fn; cbn [fst snd] in *;
    (split; [first [exact Hle | cbn; lia]
            | first [done | intros; reflexivity | intros _; by apply Heq]]).
Qed.

End PollMore.

Section PollCalls.
Context {B : Type} {api : QueueAPI B}.
Variable deserialize : pyval → outcome Task.
Variable self : TaskQueue.
Variable lease_seconds : Z.
Variable stop_fn : stop_fn_arg.
Variable backoff_exceptions : list string.
Variables min_backoff_window max_backoff_window : Z.
Variable log_fn : log_fn_arg.

Local Abbreviation pass := (poll_iteration deserialize self lease_seconds stop_fn
                    backoff_exceptions min_backoff_window max_backoff_window log_fn).
Local Abbreviation run := (poll deserialize self lease_seconds stop_fn
                   backoff_exceptions min_backoff_window max_backoff_window log_fn).

Lemma pass_deletes_match before (it : iteration) (s : poll_state B) :
  deletes_match self before s → deletes_match self before (snd (pass it s)).
Proof.
  unfold deletes_match, delete_ids, executed_ids. intros [Hd Hq].
  destruct (pass it s) as [r s'] eqn:Hpass. cbn [snd].
  run_pass_deep;
    repeat match goal with
    | H : Nat.eqb _ _ = true |- _ => apply Nat.eqb_eq in H
    | H : Nat.eqb _ _ = false |- _ => apply Nat.eqb_neq in H
    | H : negb _ = true |- _ => apply negb_true_iff in H
    | H : negb _ = false |- _ => apply negb_false_iff in H
    end;
    (split; [| try done; try (intros; congruence)]).
  all: try (rewrite ?Hq in * by done).
  all: rewrite ?omap_app in *; cbn [omap list_omap id_of] in *;
    rewrite ?app_nil_r in *; rewrite ?app_assoc; rewrite ?Hd; try done.
Qed.

(** X4. Starting with an empty pool, the deletes [poll] has issued, made on
    the backend or submitted to the pool, are those of the tasks whose
    [execute] returned, in that order: none for a task that did not run, one
    for each that did, however the run ends. *)
Theorem poll_deletes_the_tasks_it_ran (script : list iteration) (w : world B) :
  _queue w = [] →
  let s' := snd (run script w) in
  delete_ids (calls (p_world s') ++ _queue (p_world s'))
    = delete_ids (calls w) ++ executed_ids (events s').
Proof.
  intros Hq s'.
  apply (run_invariant deserialize self lease_seconds stop_fn backoff_exceptions
           min_backoff_window max_backoff_window log_fn
           (deletes_match self (delete_ids (calls w)))).
  - split; [| done]. cbn. by rewrite Hq, !app_nil_r.
  - intros it s. apply pass_deletes_match.
Qed.

Lemma pass_poll_calls (it : iteration) (s : poll_state B) :
  forallb (poll_call lease_seconds) (calls (p_world s) ++ _queue (p_world s)) = true →
  forallb (poll_call lease_seconds)
    (calls (p_world (snd (pass it s))) ++ _queue (p_world (snd (pass it s)))) = true.
Proof.
  intros Hok. destruct (pass it s) as [r s'] eqn:Hpass. cbn [snd].
  rewrite forallb_app in Hok. apply andb_true_iff in Hok as [Hc Hq].
  run_pass_deep; rewrite ?forallb_app; cbn [forallb poll_call];
    rewrite ?Hc, ?Hq, ?Z.eqb_refl; reflexivity.
Qed.

(** X5. Every call [poll] makes on the backend or submits to the pool is a
    lease of one task for [lease_seconds] with no tag, or a delete. *)
Theorem poll_only_leases_one_task_and_deletes (script : list iteration) (b : B) :
  let s' := snd (run script (World b [] [])) in
  forallb (poll_call lease_seconds) (calls (p_world s') ++ _queue (p_world s')) = true.
Proof.
  apply (run_invariant deserialize self lease_seconds stop_fn backoff_exceptions
           min_backoff_window max_backoff_window log_fn
           (fun s => forallb (poll_call lease_seconds)
                       (calls (p_world s) ++ _queue (p_world s)) = true)).
  - reflexivity.
  - apply pass_poll_calls.
Qed.

(** X6. When [execute] raises an exception that is neither [QueueEmpty] nor
    listed by the caller in the first pass, [poll] raises it at once: the
    backend has seen the lease only, no delete, nothing was counted and the
    rest of the run does not happen. *)
Theorem poll_fatal_error_stops_the_loop (it : iteration) (rest : list iteration)
    (w w1 : world B) (task : Task) (e : exn) :
  (∀ repr, stop_fn ≠ StopNotCallable repr) →
  it_LOOP it = true →
  lease deserialize self lease_seconds 1 PNone w = (Ret task, w1) →
  it_execute it = Some e →
  except_matches (backoff_exceptions ++ ["TaskQueue.QueueEmpty"]) e = false →
  run (it :: rest) w
    = (Some (Raise e), PollState w1 1 0 false [Leased task]).
Proof.
  intros Hstop Hloop Hlease Hexec Hfatal.
  assert (Hpass : pass it (poll_init w)
            = (Raise e, PollState w1 1 0 false [Leased task])).
  { unfold poll_iteration. unfold bind at 1.
    unfold poll_try, try_except, poll_body. unfold bind at 1. unfold in_world.
    cbn [poll_init p_world]. rewrite Hlease.
    unfold emit, set_tries, effect, bind, modify, raise. rewrite Hexec.
    cbn [tries executed backoff events p_world]. by rewrite Hfatal. }
  unfold poll. cbn [poll_loop]. rewrite Hloop, Hpass.
  destruct stop_fn; [done | done |]. by destruct (Hstop repr).
Qed.

End PollCalls.

(** ** More on the facade *)

Lemma map_outcome_Ret {A C} (f : A → outcome C) (xs : list A) (ys : list C) :
  map_outcome f xs = Ret ys ↔ Forall2 (fun x y => f x = Ret y) xs ys.
Proof.
  revert ys. induction xs as [| x xs IH]; intros ys; cbn.
  - split; [intros [= <-]; constructor | by inversion 1].
  - unfold obind. split.
    + destruct (f x) as [y |] eqn:Hx; [| done].
      destruct (map_outcome f xs) as [ys' |] eqn:Hxs; [| done].
      intros [= <-]. constructor; [done |]. by apply IH.
    + inversion 1 as [| ? y ? ys' Hx Hrest]; subst. rewrite Hx.
      apply IH in Hrest. by rewrite Hrest.
Qed.

Lemma map_outcome_Raise {A C} (f : A → outcome C) (xs : list A) (x : A) (e : exn) :
  x ∈ xs → f x = Raise e → ∃ e', map_outcome f xs = Raise e'.
Proof.
  induction xs as [| x0 xs IH]; [by intros ?%elem_of_nil |].
  intros [-> | Hin]%elem_of_cons Hx; cbn; unfold obind.
  - rewrite Hx. eauto.
  - destruct (f x0); [| eauto]. destruct (IH Hin Hx) as [e' ->]. eauto.
Qed.

Section FacadeMore.
Context {B : Type} {api : QueueAPI B}.
Variable deserialize : pyval → outcome Task.

(** X7. A tag that is false as a condition (None, the empty string) is
    leased as no tag at all, with [groupByTag] false; any other tag is passed
    on with [groupByTag] true. *)
Theorem lease_falsy_tag_is_no_tag (self : TaskQueue) (seconds num_tasks : Z)
    (tag : pyval) (w : world B) :
  (truthy tag = false →
     lease deserialize self seconds num_tasks tag w
       = lease deserialize self seconds num_tasks PNone w ∧
     ∀ qurl region, _api self = AWSTaskQueueAPI qurl region →
       calls (snd (lease deserialize self seconds num_tasks tag w))
         = calls w ++ [ApiLease num_tasks seconds false PNone]) ∧
  (truthy tag = true →
     ∀ qurl region, _api self = AWSTaskQueueAPI qurl region →
       calls (snd (lease deserialize self seconds num_tasks tag w))
         = calls w ++ [ApiLease num_tasks seconds true tag]).
Proof.
  split.
  - intros Hfalsy. unfold lease. rewrite Hfalsy. cbn [truthy]. split; [done |].
    intros qurl region Hapi. unfold bind. rewrite Hapi, via_api_client.
    unfold raise, lift. repeat case_match; simplify_eq; done.
  - intros Htruthy qurl region Hapi. unfold lease. rewrite Htruthy.
    assert (tag ≠ PNone) as Hne by (intros ->; discriminate).
    rewrite bool_decide_eq_false_2 by done. cbn [negb].
    unfold bind. rewrite Hapi, via_api_client.
    unfold raise, lift. repeat case_match; simplify_eq; done.
Qed.

Lemma totask_Ret (record : gmap string pyval) (t : Task) :
  totask deserialize record = Ret t ↔
  ∃ p t0 i, record !! "payload" = Some p ∧ deserialize p = Ret t0 ∧
            record !! "id" = Some i ∧ t = set_id t0 i.
Proof.
  unfold totask, getitem, obind. split.
  - destruct (record !! "payload") as [p |] eqn:Hp; [| done].
    destruct (deserialize p) as [t0 |] eqn:Ht0; [| done].
    destruct (record !! "id") as [i |] eqn:Hi; [| done].
    intros [= <-]. by exists p, t0, i.
  - intros (p & t0 & i & -> & -> & -> & ->). done.
Qed.

(** X8. [list] is all or nothing: when it returns, its tasks are the
    backend's records one for one and in order, each deserialized from the
    record's payload and carrying the record's id; a record without a payload
    or an id makes the whole call raise. *)
Theorem list_converts_every_record_or_raises (self : TaskQueue) (w : world B)
    qurl region raw b' :
  _api self = AWSTaskQueueAPI qurl region →
  api_list (backend w) = (Ret raw, b') →
  (∀ lst w', list_ deserialize self w = (Ret lst, w') →
     Forall2 (fun record t =>
                record !! "id" = Some (_id t) ∧
                ∃ p t0, record !! "payload" = Some p ∧ deserialize p = Ret t0 ∧
                        t = set_id t0 (_id t)) raw lst) ∧
  (∀ record, record ∈ raw →
     record !! "payload" = None ∨ record !! "id" = None →
     ∃ e, list_ deserialize self w
            = (Raise e, World b' (_queue w) (calls w ++ [ApiList]))).
Proof.
  intros Hapi Hreply.
  assert (Hlist : list_ deserialize self w
            = (map_outcome (totask deserialize) raw,
               World b' (_queue w) (calls w ++ [ApiList]))).
  { unfold list_, bind, lift. rewrite Hapi, via_api_client, Hreply. cbn [fst snd].
    done. }
  split.
  - intros lst w'. rewrite Hlist. intros [= Hmap <-].
    apply map_outcome_Ret in Hmap.
    eapply Forall2_impl; [exact Hmap |]. cbn.
    intros record t (p & t0 & i & Hp & Ht0 & Hi & ->)%totask_Ret. cbn. eauto 10.
  - intros record Hin Hmissing. rewrite Hlist.
    assert (∃ e, totask deserialize record = Raise e) as [e He].
    { unfold totask, getitem, obind. destruct Hmissing as [-> | Hid]; [eauto |].
      destruct (record !! "payload") as [p |]; [| eauto].
      destruct (deserialize p); [| eauto]. rewrite Hid. eauto. }
    destruct (map_outcome_Raise _ _ _ _ Hin He) as [e' ->]. eauto.
Qed.

(** X9. With an empty pool, [insert], [delete] and [acknowledge] through the
    thread pool followed by [wait] leave the backend and the record of calls
    as the direct call does, and raise when and what the direct call raises. *)
Theorem pooled_call_then_wait_is_the_direct_call (self : TaskQueue) (n : nat)
    (task : Task) (x : task_or_id) (w : world B) qurl region :
  _api self = AWSTaskQueueAPI qurl region →
  _queue w = [] →
  let pooled := with_threads (S n) self in
  let direct := with_threads 0 self in
  (snd ((insert pooled task ;;; wait pooled)%py w) = snd (insert direct task w) ∧
   raised (fst ((insert pooled task ;;; wait pooled)%py w))
     = raised (fst (insert direct task w))) ∧
  (snd ((delete pooled x ;;; wait pooled)%py w) = snd (delete direct x w) ∧
   raised (fst ((delete pooled x ;;; wait pooled)%py w))
     = raised (fst (delete direct x w))) ∧
  (snd ((acknowledge pooled x ;;; wait pooled)%py w) = snd (acknowledge direct x w) ∧
   raised (fst ((acknowledge pooled x ;;; wait pooled)%py w))
     = raised (fst (acknowledge direct x w))).
Proof.
  intros Hapi Hq pooled direct. subst pooled direct.
  unfold insert, delete, acknowledge, wait, put, bind, modify, ret, insert_body.
  cbn [with_threads _threads _api _queue_name Nat.eqb negb _queue backend calls].
  rewrite Hapi, Hq. cbn [app run_pending run_call].
  rewrite !via_api_client. cbn [fst snd backend _queue calls]. rewrite ?Hq.
  split_and!; repeat case_match; simplify_eq; cbn in *; congruence.
Qed.

Lemma list_world (self : TaskQueue) (w w1 : world B) qurl region r :
  _api self = AWSTaskQueueAPI qurl region →
  list_ deserialize self w = (r, w1) →
  calls w1 = calls w ++ [ApiList] ∧ _queue w1 = _queue w.
Proof.
  intros Hapi. unfold list_, bind, lift. rewrite Hapi, via_api_client.
  destruct (fst (api_list (backend w))); by intros [= <- <-].
Qed.

Lemma deletes_of_list_or_delete (lst : list Task) :
  forallb list_or_delete (deletes_of lst) = true.
Proof. induction lst as [| t lst IH]; [done |]. cbn. exact IH. Qed.

Lemma purge_fallback_round (fuel : nat) (self : TaskQueue) (w : world B) :
  purge_fallback deserialize (S fuel) self w
  = match list_ deserialize self w with
    | (Raise e, w1) => Some (Raise e, w1)
    | (Ret lst, w1) =>
        if Nat.eqb (length lst) 0 then Some (Ret (RSelf self), w1)
        else match (delete_each self lst ;;; wait self)%py w1 with
             | (Raise e, w2) => Some (Raise e, w2)
             | (Ret _, w2) => purge_fallback deserialize fuel self w2
             end
    end.
Proof. reflexivity. Qed.

(** X10. When the fallback loop of [purge] returns, it returns [self], the
    pool is drained, the last backend call is a [list], and the calls before
    it are lists and deletes only. *)
Theorem purge_fallback_ends_on_an_empty_list (fuel : nat) (self : TaskQueue)
    (w w' : world B) (r : retval) qurl region :
  _api self = AWSTaskQueueAPI qurl region →
  _queue w = [] →
  purge_fallback deserialize fuel self w = Some (Ret r, w') →
  r = RSelf self ∧ _queue w' = [] ∧
  ∃ new, calls w' = calls w ++ new ++ [ApiList] ∧
         forallb list_or_delete new = true.
Proof.
  intros Hapi. revert w. induction fuel as [| fuel IH]; intros w Hq; [done |].
  rewrite purge_fallback_round.
  destruct (list_ deserialize self w) as [[lst | e] w1] eqn:Hlist; [| done].
  destruct (list_world _ _ _ _ _ _ Hapi Hlist) as [Hc1 Hq1]. rewrite Hq in Hq1.
  destruct (Nat.eqb (length lst) 0).
  - intros [= <- <-]. split_and!; [done | done |]. exists []. by rewrite Hc1.
  - destruct ((delete_each self lst ;;; wait self)%py w1) as [[q | e] w2] eqn:Hround;
      [| done].
    destruct (purge_round_calls self lst qurl region (Ret q) w1 w2 Hapi Hq1 Hround)
      as [_ Hw2].
    destruct Hw2 as [Hc2 Hq2]; [right; eauto |].
    intros Hrest. destruct (IH w2 Hq2 Hrest) as (Hr & Hq' & new & Hc' & Hnew).
    split_and!; [done | done |].
    exists ([ApiList] ++ deletes_of lst ++ new). split.
    + rewrite Hc', Hc2, Hc1. by rewrite <- !app_assoc.
    + rewrite !forallb_app, deletes_of_list_or_delete, Hnew. done.
Qed.

(** X11. On a queue built with a Google server name, [purge] takes the
    fallback and raises the [AttributeError] of its first [list], leaving the
    state as it was. *)
Theorem purge_on_unsupported_backend_raises_attribute_error (fuel : nat)
    (self : TaskQueue) (w : world B) (e : exn) :
  _api self = NotImplementedInstance e →
  ∃ msg, purge deserialize (S fuel) self w = Some (Raise (AttributeError msg), w).
Proof.
  intros Hapi. unfold purge, call_purge. rewrite Hapi.
  cbn [raise except_matches existsb]. unfold raise.
  change (isinstance (AttributeError "purge") "AttributeError") with true.
  cbn [orb purge_fallback]. unfold list_, bind. rewrite Hapi. cbn [via_api].
  eauto.
Qed.

End FacadeMore.

(** ** More on the backoff window *)

(** X12. For a draw that is not negative the sleep does not shrink when the
    retry count grows, and from [min_backoff_window] tries on it is what it is
    at [min_backoff_window] tries. *)
Theorem backoff_window_grows_then_saturates (minw maxw n m : Z) (u : Q) :
  (0 <= u)%Q →
  (n <= m →
     (random_exponential_window_backoff minw maxw n u
        <= random_exponential_window_backoff minw maxw m u)%Q) ∧
  (minw <= n →
     random_exponential_window_backoff minw maxw n u
       = random_exponential_window_backoff minw maxw minw u).
Proof.
  intros Hu. split.
  - intros Hnm. unfold random_exponential_window_backoff, uniform.
    assert (Qmin (Qpower (2 # 1) (Z.min n minw)) (inject_Z maxw)
              <= Qmin (Qpower (2 # 1) (Z.min m minw)) (inject_Z maxw))%Q as Hhigh.
    { apply Q.min_le_compat_r. apply Qpower_le_compat_l; [lia | done]. }
    nra.
  - intros Hcap. unfold random_exponential_window_backoff.
    by rewrite Z.min_r, Z.min_id by lia.
Qed.

(** ** More on the local queues *)

Section LocalMore.
Import LocalTaskQueue.
Variable behaviour : Task → option exn.
Variable cpu_count : Z.

Lemma first_failure_split k (q : list Task) :
  match first_failure behaviour k q with
  | None => Forall (fun t => behaviour t = None) q
  | Some (i, e) =>
      (k <= i < k + length q)%nat ∧
      Forall (fun t => behaviour t = None) (take (i - k) q) ∧
      (behaviour <$> q !! (i - k)%nat) = Some (Some e)
  end.
Proof.
  revert k. induction q as [| t q IH]; intros k; cbn; [done |].
  destruct (behaviour t) as [e |] eqn:Ht.
  - rewrite Nat.sub_diag. cbn. rewrite Ht. split_and!; [lia | lia | done | done].
  - specialize (IH (S k)). destruct (first_failure behaviour (S k) q) as [[i e] |].
    + destruct IH as (Hi & Hpre & Hat).
      replace (i - k)%nat with (S (i - S k)) by lia. cbn.
      split_and!; [lia | lia | by constructor | done].
    + by constructor.
Qed.

(** X13. Inserting tasks one after the other into a [MockTaskQueue] runs
    them in that order up to the first one that raises: its exception comes
    out of that [insert] and the tasks after it do not run. *)
Theorem mock_inserts_run_in_order_until_one_raises (self : MockTaskQueue.t)
    (tasks ran : list Task) :
  for_each (MockTaskQueue.insert behaviour self) tasks ran
  = match first_failure behaviour 0 tasks with
    | None => (Ret tt, ran ++ tasks)
    | Some (i, e) => (Raise e, ran ++ take i tasks)
    end.
Proof.
  assert (Hgen : ∀ k,
    for_each (MockTaskQueue.insert behaviour self) tasks ran
    = match first_failure behaviour k tasks with
      | None => (Ret tt, ran ++ tasks)
      | Some (i, e) => (Raise e, ran ++ take (i - k) tasks)
      end).
  { revert ran. induction tasks as [| t tasks IH]; intros ran k; cbn.
    - by rewrite app_nil_r.
    - unfold bind, MockTaskQueue.insert, task_execute.
      destruct (behaviour t) as [e |] eqn:Ht.
      + rewrite Nat.sub_diag. cbn. by rewrite app_nil_r.
      + rewrite (IH _ (S k)).
        pose proof (first_failure_split (S k) tasks) as Hsplit.
        destruct (first_failure behaviour (S k) tasks) as [[i e] |].
        * destruct Hsplit as (Hi & _).
          replace (i - k)%nat with (S (i - S k)) by lia. cbn.
          by rewrite <- app_assoc.
        * by rewrite <- app_assoc. }
  rewrite (Hgen 0%nat). destruct (first_failure behaviour 0 tasks) as [[i e] |]; [| done].
  by rewrite Nat.sub_0_r.
Qed.

Lemma pool_one_worker fuel schedule waiting finished ran :
  (length waiting <= fuel)%nat →
  Forall (fun x => behaviour (snd x) = None) waiting →
  pool behaviour fuel 1 schedule None [] waiting finished ran
  = ran ++ (snd <$> waiting).
Proof.
  revert schedule waiting finished ran.
  induction fuel as [| fuel IH]; intros schedule waiting finished ran Hlen Hok.
  - destruct waiting; [| cbn in Hlen; lia]. cbn. by rewrite app_nil_r.
  - cbn [pool cancelled length Nat.sub app].
    destruct waiting as [| [i task] rest].
    + cbn. by rewrite app_nil_r.
    + cbn [take drop length]. rewrite take_0. cbn [length].
      rewrite Nat.mod_1_r. cbn [lookup list_lookup base.delete list_delete].
      apply Forall_cons in Hok as [Htask Hrest]. cbn in Htask.
      unfold task_execute. rewrite Htask. cbn [snd].
      rewrite IH; rewrite ?drop_0; [| cbn in Hlen; lia | done].
      cbn. by rewrite <- app_assoc.
Qed.

(** X14. With a pool of one process and tasks that do not raise,
    [LocalTaskQueue.__exit__] runs the buffer in insertion order, whatever
    the schedule. *)
Theorem local_queue_with_one_process_runs_in_order (s : state) (schedule : list nat) :
  max_workers (parallel (self s)) = 1 →
  (∀ t, t ∈ queue (self s) → behaviour t = None) →
  __exit__ behaviour schedule s
  = (Ret tt, State (Local (parallel (self s)) [] (progress (self s)))
                   (ran s ++ queue (self s))).
Proof.
  intros Hone Hok. unfold __exit__. rewrite Hone. cbn [Z.leb Z.compare Z.to_nat].
  rewrite first_failure_none by done. cbn [fmap option_fmap option_map].
  change (Pos.to_nat 1) with 1%nat.
  rewrite pool_one_worker.
  - by rewrite number_snd.
  - by rewrite number_length.
  - apply Forall_forall. intros [i t] Hin. apply Hok.
    rewrite <- (number_snd 0 (queue (self s))).
    apply list_elem_of_fmap. by exists (i, t).
Qed.

Lemma pool_runs_each_at_most_once fuel workers schedule bad running waiting finished ran :
  ∃ l, pool behaviour fuel workers schedule bad running waiting finished ran = ran ++ l ∧
       l ⊆+ (snd <$> (running ++ waiting)) ∧
       Forall (fun t => behaviour t = None) l.
Proof.
  revert schedule running waiting finished ran.
  induction fuel as [| fuel IH]; intros schedule running waiting finished ran.
  - exists []. cbn. rewrite app_nil_r. split_and!; [done | apply submseteq_nil_l | done].
  - cbn [pool].
    set (waiting1 := if cancelled bad finished then [] else waiting).
    set (idle := (workers - length running)%nat).
    set (running1 := running ++ take idle waiting1).
    set (waiting2 := drop idle waiting1).
    assert (Hsame : running1 ++ waiting2 = running ++ waiting1).
    { unfold running1, waiting2. by rewrite <- app_assoc, take_drop. }
    assert (Hsub : (snd <$> (running ++ waiting1)) ⊆+ (snd <$> (running ++ waiting))).
    { unfold waiting1. destruct (cancelled bad finished); [| done].
      rewrite app_nil_r, fmap_app. apply submseteq_inserts_r. done. }
    set (c := (hd 0%nat schedule mod length running1)%nat).
    destruct (running1 !! c) as [[i task] |] eqn:Hlook.
    + destruct (IH (tl schedule) (base.delete c running1) waiting2 (i :: finished)
                  (snd (task_execute behaviour task ran))) as (l & -> & Hl & Hok).
      assert (Hperm : (snd <$> (running1 ++ waiting2))
                        ≡ₚ task :: (snd <$> (base.delete c running1 ++ waiting2))).
      { rewrite !fmap_app.
        rewrite (delete_Permutation running1 c (i, task) Hlook) at 1. done. }
      unfold task_execute. destruct (behaviour task) as [e |] eqn:Htask; cbn [snd].
      * exists l. split_and!; [done | | done].
        etrans; [exact Hl |]. etrans; [| exact Hsub].
        rewrite <- Hsame, Hperm. by apply submseteq_cons.
      * exists (task :: l). split_and!.
        -- by rewrite <- app_assoc.
        -- etrans; [| exact Hsub]. rewrite <- Hsame, Hperm. by apply submseteq_skip.
        -- by constructor.
    + exists []. rewrite app_nil_r. split_and!; [done | apply submseteq_nil_l | done].
Qed.

(** X15. Whatever the pool size, the schedule and the tasks,
    [LocalTaskQueue.__exit__] runs each buffered task at most once and
    records none that raised; when a task raises on a pool of positive size,
    the exception of the first such task of the buffer comes out and the
    queue object, buffer included, is left as it was. *)
Theorem local_queue_never_runs_a_task_twice (s : state) (schedule : list nat) :
  (∃ l, ran (snd (__exit__ behaviour schedule s)) = ran s ++ l ∧
        l ⊆+ queue (self s) ∧
        Forall (fun t => behaviour t = None) l) ∧
  (∀ i e, 0 < max_workers (parallel (self s)) →
     first_failure behaviour 0 (queue (self s)) = Some (i, e) →
     fst (__exit__ behaviour schedule s) = Raise e ∧
     self (snd (__exit__ behaviour schedule s)) = self s).
Proof.
  unfold __exit__. split.
  - destruct (Z.leb (max_workers (parallel (self s))) 0).
    + exists []. cbn. rewrite app_nil_r.
      split_and!; [done | apply submseteq_nil_l | done].
    + destruct (pool_runs_each_at_most_once (length (queue (self s)))
                  (Z.to_nat (max_workers (parallel (self s)))) schedule
                  (fst <$> first_failure behaviour 0 (queue (self s))) []
                  (number 0 (queue (self s))) [] (ran s)) as (l & Hl & Hsub & Hok).
      rewrite app_nil_l, number_snd in Hsub.
      exists l. destruct (first_failure behaviour 0 (queue (self s))) as [[i e] |];
        cbn [snd ran]; done.
  - intros i e Hworkers Hbad.
    destruct (Z.leb_spec (max_workers (parallel (self s))) 0); [lia |].
    rewrite Hbad. done.
Qed.

Lemma inserts_fill_the_buffer (tasks : list Task) (s : state) :
  for_each insert tasks s
  = (Ret tt, State (Local (parallel (self s)) (queue (self s) ++ tasks)
                          (progress (self s))) (ran s)).
Proof.
  revert s. induction tasks as [| t tasks IH]; intros s.
  - cbn. rewrite app_nil_r. by destruct s as [[]].
  - cbn [for_each]. unfold bind. unfold insert at 1, modify. rewrite IH.
    cbn. by rewrite <- app_assoc.
Qed.

Lemma exit_drains (s : state) (schedule : list nat) :
  0 < max_workers (parallel (self s)) →
  (∀ t, t ∈ queue (self s) → behaviour t = None) →
  ∃ ran', __exit__ behaviour schedule s
            = (Ret tt, State (Local (parallel (self s)) [] (progress (self s))) ran') ∧
          ran' ≡ₚ ran s ++ queue (self s).
Proof.
  intros Hworkers Hok. unfold __exit__.
  destruct (Z.leb_spec (max_workers (parallel (self s))) 0); [lia |].
  rewrite first_failure_none by done. eexists. split; [reflexivity |].
  rewrite pool_runs_all; [| lia | | by rewrite number_length].
  - by rewrite app_nil_l, number_snd.
  - intros [i t] Hin. apply Hok. rewrite <- (number_snd 0 (queue (self s))).
    apply list_elem_of_fmap. by exists (i, t).
Qed.

(** X16. A fresh [LocalTaskQueue] of positive pool size, filled with tasks
    that do not raise and left twice: the first exit runs every task once,
    the second runs nothing, the object ends as it started, and the tasks run
    are those a [MockTaskQueue] runs for the same inserts. *)
Theorem local_queue_lifecycle_runs_each_task_once (parallel : parallel_arg)
    (progress : bool) (ran0 tasks : list Task) (schedule schedule' : list nat) :
  let q := __init__ cpu_count parallel progress in
  0 < max_workers (LocalTaskQueue.parallel q) →
  (∀ t, t ∈ tasks → behaviour t = None) →
  ∃ ran',
    (for_each insert tasks ;;; __exit__ behaviour schedule ;;;
     __exit__ behaviour schedule')%py (State q ran0)
    = (Ret tt, State q ran') ∧
    ran' ≡ₚ ran0 ++ tasks ∧
    ran' ≡ₚ snd (for_each (MockTaskQueue.insert behaviour MockTaskQueue.Mock) tasks ran0).
Proof.
  intros q Hworkers Hok.
  rewrite mock_inserts_run_in_order_until_one_raises.
  rewrite (first_failure_none behaviour 0 tasks Hok). cbn [snd].
  unfold bind at 1. rewrite inserts_fill_the_buffer.
  change (queue (self (State q ran0)) ++ tasks) with tasks.
  change (self (State q ran0)) with q. change (ran (State q ran0)) with ran0.
  unfold bind.
  destruct (exit_drains (State (Local (LocalTaskQueue.parallel q) tasks
                                      (LocalTaskQueue.progress q)) ran0) schedule)
    as (ran1 & -> & Hperm1); [done | done |].
  destruct (exit_drains (State (Local (LocalTaskQueue.parallel q) []
                                      (LocalTaskQueue.progress q)) ran1) schedule')
    as (ran2 & Hexit2 & Hperm2); [done | by intros t ?%elem_of_nil |].
  cbn [self ran queue LocalTaskQueue.parallel LocalTaskQueue.progress] in *.
  rewrite Hexit2. exists ran2. rewrite app_nil_r in Hperm2.
  split_and!; [done | by rewrite Hperm2 | by rewrite Hperm2].
Qed.

End LocalMore.

(** ** Interrupts *)

Section PollInterrupt.
Context {B : Type} {api : QueueAPI B}.
Variable deserialize : pyval → outcome Task.
Variable self : TaskQueue.
Variable lease_seconds : Z.
Variable stop_fn : stop_fn_arg.
Variable backoff_exceptions : list string.
Variables min_backoff_window max_backoff_window : Z.
Variable log_fn : log_fn_arg.

Local Abbreviation loop := (poll_loop deserialize self lease_seconds stop_fn
                    backoff_exceptions min_backoff_window max_backoff_window log_fn).
Local Abbreviation run := (poll deserialize self lease_seconds stop_fn
                   backoff_exceptions min_backoff_window max_backoff_window log_fn).

(** A loop that is still running after [pre] goes on with what follows. *)
Lemma loop_app (pre rest : list iteration) (s : poll_state B) :
  fst (loop pre s) = None →
  loop (pre ++ rest) s = loop rest (snd (loop pre s)).
Proof.
  revert s. induction pre as [| it pre IH]; intros s; [done |].
  cbn [poll_loop app]. destruct (it_LOOP it); [| done].
  destruct (poll_iteration _ _ _ _ _ _ _ _ it s) as [[[] | e] s']; cbn [fst snd];
    [apply IH | done | done].
Qed.

Lemma run_running (script : list iteration) (w : world B) :
  fst (run script w) = None →
  fst (loop script (poll_init w)) = None ∧
  snd (run script w) = snd (loop script (poll_init w)) ∧
  ∀ repr, stop_fn ≠ StopNotCallable repr.
Proof.
  unfold poll. destruct (loop script (poll_init w)) as [[[[] | e] |] s];
    destruct stop_fn; cbn [fst snd]; try done.
Qed.

(** X17. When the interrupt flag is found cleared at a loop test, [poll]
    returns the count reached by the passes before it, with the state those
    passes left: no further lease or delete is made. *)
Theorem poll_interrupt_returns_the_count_so_far (pre rest : list iteration)
    (it : iteration) (w : world B) :
  fst (run pre w) = None →
  it_LOOP it = false →
  run (pre ++ it :: rest) w
    = (Some (Ret (executed (snd (run pre w)))), snd (run pre w)).
Proof.
  intros (Hpre & -> & Hstop)%run_running Hint.
  unfold poll. rewrite loop_app by done. cbn [poll_loop]. rewrite Hint.
  destruct stop_fn; [done | done |]. by destruct (Hstop repr).
Qed.

End PollInterrupt.

(** ** The properties above on concrete runs *)

Lemma poll_interrupt_returns_the_count_so_far_witness :
  poll (api := memq_api) deserialize_by_name (sqs_queue 0) 300 StopCallable [] 30 120
       LogNone ([quiet_pass false] ++ interrupted_pass :: [quiet_pass false])
       (fresh_world (memq_with ["PrintTask"] None))
  = (Some (Ret 1%nat),
     PollState (World (MemQ [] 1 None) []
                  [ApiLease 1 300 false PNone; ApiDelete (PInt 0)])
               0 1 false
               [Leased (mkTask "PrintTask" (PStr "PrintTask") (PInt 0));
                Executed (mkTask "PrintTask" (PStr "PrintTask") (PInt 0));
                Acknowledged (mkTask "PrintTask" (PStr "PrintTask") (PInt 0));
                Logged (mkTask "PrintTask" (PStr "PrintTask") (PInt 0))]).
Proof.
  apply (poll_interrupt_returns_the_count_so_far (api := memq_api) deserialize_by_name
           (sqs_queue 0) 300 StopCallable [] 30 120 LogNone
           [quiet_pass false] [quiet_pass false] interrupted_pass
           (fresh_world (memq_with ["PrintTask"] None))); reflexivity.
Defined.

Lemma poll_without_lease_sleeps_at_most_a_second_witness :
  Forall short_sleep
    (events (snd (poll (api := memq_api) deserialize_by_name (sqs_queue 0) 300 StopNone
                    [] 30 120 LogNone [quiet_pass false; quiet_pass false]
                    (fresh_world (memq_with [] None))))).
Proof.
  apply (poll_without_lease_sleeps_at_most_a_second (api := memq_api)
           deserialize_by_name (sqs_queue 0) 300 StopNone [] 30 120 LogNone).
  - lia.
  - repeat constructor; unfold Qle; simpl; lia.
  - vm_compute. reflexivity.
Defined.

Lemma poll_sleeps_once_per_backoff_witness :
  let r := poll (api := memq_api) deserialize_by_name (sqs_queue 0) 300 StopNone
             [] 30 120 LogNone [quiet_pass false; quiet_pass false]
             (fresh_world (memq_with [] None)) in
  sleeps (events (snd r)) = backoffs (events (snd r)).
Proof.
  intros r.
  apply (poll_sleeps_once_per_backoff (api := memq_api) deserialize_by_name
           (sqs_queue 0) 300 StopNone [] 30 120 LogNone
           [quiet_pass false; quiet_pass false] (fresh_world (memq_with [] None))).
  vm_compute. reflexivity.
Defined.

Lemma poll_deletes_the_tasks_it_ran_witness :
  let s' := snd (poll (api := memq_api) deserialize_by_name (sqs_queue 40) 300
                   StopCallable [] 30 120 LogNone [quiet_pass false; quiet_pass true]
                   (fresh_world (memq_with ["PrintTask"] None))) in
  delete_ids (calls (p_world s') ++ _queue (p_world s'))
    = delete_ids (calls (fresh_world (memq_with ["PrintTask"] None)))
      ++ executed_ids (events s').
Proof.
  apply (poll_deletes_the_tasks_it_ran (api := memq_api) deserialize_by_name
           (sqs_queue 40) 300 StopCallable [] 30 120 LogNone
           [quiet_pass false; quiet_pass true]
           (fresh_world (memq_with ["PrintTask"] None))).
  reflexivity.
Defined.

Lemma poll_fatal_error_stops_the_loop_witness :
  poll (api := memq_api) deserialize_by_name (sqs_queue 0) 300 StopNone [] 30 120
       LogNone [failing_pass ClientError; quiet_pass false]
       (fresh_world (memq_with ["PrintTask"] None))
  = (Some (Raise ClientError),
     PollState (World (memq_with ["PrintTask"] None) [] [ApiLease 1 300 false PNone])
               1 0 false [Leased (mkTask "PrintTask" (PStr "PrintTask") (PInt 0))]).
Proof.
  apply (poll_fatal_error_stops_the_loop (api := memq_api) deserialize_by_name
           (sqs_queue 0) 300 StopNone [] 30 120 LogNone
           (failing_pass ClientError) [quiet_pass false]
           (fresh_world (memq_with ["PrintTask"] None))).
  - discriminate.
  - reflexivity.
  - reflexivity.
  - reflexivity.
  - reflexivity.
Defined.

Lemma lease_falsy_tag_is_no_tag_witness :
  let w := fresh_world (memq_with ["PrintTask"] None) in
  lease (api := memq_api) deserialize_by_name (sqs_queue 0) 600 1 (PStr "") w
    = lease (api := memq_api) deserialize_by_name (sqs_queue 0) 600 1 PNone w ∧
  calls (snd (lease (api := memq_api) deserialize_by_name (sqs_queue 0) 600 1
                (PStr "PrintTask") w))
    = calls w ++ [ApiLease 1 600 true (PStr "PrintTask")].
Proof.
  intros w. split.
  - apply (lease_falsy_tag_is_no_tag (api := memq_api) deserialize_by_name
             (sqs_queue 0) 600 1 (PStr "") w). reflexivity.
  - apply (proj2 (lease_falsy_tag_is_no_tag (api := memq_api) deserialize_by_name
             (sqs_queue 0) 600 1 (PStr "PrintTask") w) eq_refl
             (PStr "jobs") (PStr "us-east-1") eq_refl).
Defined.

Lemma list_converts_every_record_or_raises_witness :
  let w := fresh_world (memq_with ["PrintTask"; "MockTask"] None) in
  Forall2 (fun record t =>
             record !! "id" = Some (_id t) ∧
             ∃ p t0, record !! "payload" = Some p ∧ deserialize_by_name p = Ret t0 ∧
                     t = set_id t0 (_id t))
    (stored (memq_with ["PrintTask"; "MockTask"] None))
    [mkTask "PrintTask" (PStr "PrintTask") (PInt 0);
     mkTask "MockTask" (PStr "MockTask") (PInt 1)].
Proof.
  intros w.
  apply (proj1 (list_converts_every_record_or_raises (api := memq_api)
           deserialize_by_name (sqs_queue 0) w (PStr "jobs") (PStr "us-east-1")
           (stored (memq_with ["PrintTask"; "MockTask"] None))
           (memq_with ["PrintTask"; "MockTask"] None) eq_refl eq_refl)
           _ (World (memq_with ["PrintTask"; "MockTask"] None) [] [ApiList])).
  reflexivity.
Defined.

Lemma pooled_call_then_wait_is_the_direct_call_witness :
  let w := fresh_world (memq_with ["PrintTask"] None) in
  let pooled := with_threads 40 (sqs_queue 0) in
  let direct := with_threads 0 (sqs_queue 0) in
  snd ((delete (api := memq_api) pooled (OfId (PInt 0)) ;;; wait (api := memq_api) pooled)%py w)
    = snd (delete (api := memq_api) direct (OfId (PInt 0)) w).
Proof.
  intros w pooled direct.
  apply (pooled_call_then_wait_is_the_direct_call (api := memq_api) (sqs_queue 0) 39
           (mkTask "PrintTask" (PStr "PrintTask") PNone) (OfId (PInt 0)) w
           (PStr "jobs") (PStr "us-east-1") eq_refl eq_refl).
Defined.

Lemma purge_fallback_ends_on_an_empty_list_witness :
  RSelf (sqs_queue 40) = RSelf (sqs_queue 40) ∧
  _queue (World (MemQ [] 2 None) ([] : list api_call)
            [ApiList; ApiDelete (PInt 0); ApiDelete (PInt 1); ApiList]) = [] ∧
  ∃ new, [ApiList; ApiDelete (PInt 0); ApiDelete (PInt 1); ApiList]
           = [] ++ new ++ [ApiList] ∧
         forallb list_or_delete new = true.
Proof.
  apply (purge_fallback_ends_on_an_empty_list (api := memq_api) deserialize_by_name 3
           (sqs_queue 40) (fresh_world (memq_with ["PrintTask"; "MockTask"] None))
           (World (MemQ [] 2 None) []
              [ApiList; ApiDelete (PInt 0); ApiDelete (PInt 1); ApiList])
           (RSelf (sqs_queue 40)) (PStr "jobs") (PStr "us-east-1")).
  - reflexivity.
  - reflexivity.
  - vm_compute. reflexivity.
Defined.

Lemma purge_on_unsupported_backend_raises_attribute_error_witness :
  ∃ msg, purge (api := memq_api) deserialize_by_name 1 (google_queue 0)
           (fresh_world (memq_with [] None))
         = Some (Raise (AttributeError msg), fresh_world (memq_with [] None)).
Proof.
  apply (purge_on_unsupported_backend_raises_attribute_error (api := memq_api)
           deserialize_by_name 0 (google_queue 0) (fresh_world (memq_with [] None))
           (NotImplementedError "Google Cloud Tasks are not supported at this time.")).
  reflexivity.
Defined.

Lemma backoff_window_grows_then_saturates_witness :
  (random_exponential_window_backoff 30 120 2 (1 # 2)
     <= random_exponential_window_backoff 30 120 5 (1 # 2))%Q ∧
  random_exponential_window_backoff 30 120 31 (1 # 2)
    = random_exponential_window_backoff 30 120 30 (1 # 2).
Proof.
  destruct (backoff_window_grows_then_saturates 30 120 2 5 (1 # 2)) as [Hgrow _];
    [unfold Qle; simpl; lia |].
  destruct (backoff_window_grows_then_saturates 30 120 31 5 (1 # 2)) as [_ Hsat];
    [unfold Qle; simpl; lia |].
  split; [apply Hgrow; lia | apply Hsat; lia].
Defined.

Lemma local_queue_with_one_process_runs_in_order_witness :
  LocalTaskQueue.__exit__ (fun _ => None) [3; 1; 4]%nat
    (LocalTaskQueue.State
       (LocalTaskQueue.Local (LocalTaskQueue.ParInt 1) five_tasks true) [])
  = (Ret tt,
     LocalTaskQueue.State (LocalTaskQueue.Local (LocalTaskQueue.ParInt 1) [] true)
       ([] ++ five_tasks)).
Proof.
  apply (local_queue_with_one_process_runs_in_order (fun _ => None)
           (LocalTaskQueue.State
              (LocalTaskQueue.Local (LocalTaskQueue.ParInt 1) five_tasks true) [])
           [3; 1; 4]%nat).
  - reflexivity.
  - intros t _. reflexivity.
Defined.

Lemma local_queue_never_runs_a_task_twice_witness :
  let behaviour (t : Task) :=
    if bool_decide (payload t = PInt 2) then Some (ValueError "bad task") else None in
  let s := LocalTaskQueue.State
             (LocalTaskQueue.Local (LocalTaskQueue.ParInt 2) five_tasks true) [] in
  fst (LocalTaskQueue.__exit__ behaviour [1; 0]%nat s) = Raise (ValueError "bad task") ∧
  LocalTaskQueue.self (snd (LocalTaskQueue.__exit__ behaviour [1; 0]%nat s))
    = LocalTaskQueue.self s.
Proof.
  intros behaviour s.
  apply (proj2 (local_queue_never_runs_a_task_twice behaviour s [1; 0]%nat) 1%nat
           (ValueError "bad task")).
  - simpl. lia.
  - reflexivity.
Defined.

Lemma local_queue_lifecycle_runs_each_task_once_witness :
  ∃ ran',
    (for_each LocalTaskQueue.insert five_tasks ;;;
     LocalTaskQueue.__exit__ (fun _ => None) [1; 0; 1]%nat ;;;
     LocalTaskQueue.__exit__ (fun _ => None) [])%py
      (LocalTaskQueue.State (LocalTaskQueue.__init__ 8 (LocalTaskQueue.ParBool true) true) [])
    = (Ret tt,
       LocalTaskQueue.State (LocalTaskQueue.__init__ 8 (LocalTaskQueue.ParBool true) true)
         ran') ∧
    ran' ≡ₚ [] ++ five_tasks ∧
    ran' ≡ₚ snd (for_each (MockTaskQueue.insert (fun _ => None) MockTaskQueue.Mock)
                   five_tasks []).
Proof.
  apply (local_queue_lifecycle_runs_each_task_once (fun _ => None) 8
           (LocalTaskQueue.ParBool true) true [] five_tasks [1; 0; 1]%nat []).
  - simpl. lia.
  - intros t _. reflexivity.
Defined.

Lemma mock_inserts_run_in_order_until_one_raises_witness :
  for_each
    (MockTaskQueue.insert
       (fun t => if bool_decide (payload t = PInt 3)
                 then Some (ValueError "bad task") else None)
       MockTaskQueue.Mock)
    five_tasks []
  = (Raise (ValueError "bad task"),
     [] ++ take 2 five_tasks).
Proof.
  exact (mock_inserts_run_in_order_until_one_raises
           (fun t => if bool_decide (payload t = PInt 3)
                     then Some (ValueError "bad task") else None)
           MockTaskQueue.Mock five_tasks []).
Defined.
